(** * APDP_APP: record store, commands and sales aggregators of [app.py]

    A shallow embedding of [src/app.py].  Python values are modelled as
    follows.

    - [str] is [string]; a CSV row is a [list string], as [csv.reader]
      returns it and [csv.writer] takes it.
    - A file on durable storage is the list of rows written to it so far;
      the file system is a finite map from file names to such lists, and a
      name that is not in the map is a file that does not exist.  The text
      encoding done by the [csv] library is not part of the model.
    - Python [int] is [Z], and so are the integers of NumPy, whose width is
      not part of the model.  The results of [np.mean] and [np.median] are
      exact rationals ([Q]); rounding to a float is not part of the model.
    - A raised exception is the [Raise] case of [result].
    - [dict] is an association list in insertion order.
    - [datetime] is a proleptic Gregorian ordinal with the microseconds
      elapsed since midnight. *)

From Stdlib Require Import ZArith QArith Ascii String List Sorting.Permutation Sorting.Sorted Lia.
From stdpp Require Import base option list strings gmap.
From stdpp Require Import sorting.

Local Open Scope Z_scope.

(** ** Exceptions and results *)

Inductive exn : Set :=
| ValueError
| IndexError
| KeyError
| StopIteration
| OverflowError
| EOFError.

Inductive result (A : Type) : Type :=
| Ok (a : A)
| Raise (e : exn).
Arguments Ok {A} a.
Arguments Raise {A} e.

#[global] Instance result_ret : MRet result := fun A a => Ok a.
#[global] Instance result_bind : MBind result := fun A B f m =>
  match m with
  | Ok a => f a
  | Raise e => Raise e
  end.

Definition succeeds {A} (r : result A) : Prop := exists a, r = Ok a.
Definition raises {A} (r : result A) : Prop := exists e, r = Raise e.

(** ** Rows, files and the file system *)

Abbreviation row := (list string).
Abbreviation file := (list row).
Abbreviation filesystem := (gmap string file).

Definition USER_FILE : string := "users.csv".
Definition BRANCHES_FILE : string := "branches.csv".
Definition PRODUCTS_FILE : string := "products.csv".
Definition SALES_FILE : string := "sales.csv".

(** [str.endswith] *)
Definition endswith (s suffix : string) : bool :=
  String.prefix (String.rev suffix) (String.rev s).

(** [os.path.exists] *)
Definition path_exists (file_name : string) (fs : filesystem) : bool :=
  bool_decide (is_Some (fs !! file_name)).

(** ** Factory pattern *)

Record CSVLoader : Set := { file_name : string }.

(** [CSVLoader.load_data]: [next(reader)] skips the header and raises
    [StopIteration] when the file has no row at all. *)
Definition CSVLoader_load_data (self : CSVLoader) (fs : filesystem) : result file :=
  match fs !! file_name self with
  | Some content =>
      match content with
      | [] => Raise StopIteration
      | _header :: data => Ok data
      end
  | None => Ok []
  end.

(** [DataLoaderFactory.create_loader] *)
Definition DataLoaderFactory_create_loader (name : string) : result CSVLoader :=
  if endswith name "users.csv" then Ok {| file_name := name |}
  else if endswith name "branches.csv" then Ok {| file_name := name |}
  else if endswith name "products.csv" then Ok {| file_name := name |}
  else if endswith name "sales.csv" then Ok {| file_name := name |}
  else Raise ValueError.

(** ** Utility functions *)

Definition load_data (name : string) (fs : filesystem) : result file :=
  loader ← DataLoaderFactory_create_loader name;
  CSVLoader_load_data loader fs.

(** Truth value of the [headers] argument: [None] and the empty list are
    false. *)
Definition truthy (headers : option row) : bool :=
  match headers with
  | Some (_ :: _) => true
  | _ => false
  end.

(** The test of line 135: the header is written by this call. *)
Definition writes_header (file_exists : bool) (headers : option row) : bool :=
  negb file_exists && truthy headers.

(** The rows one call of [save_data] writes, in order. *)
Definition rows_written (file_exists : bool) (data : file) (headers : option row) : file :=
  (if writes_header file_exists headers then option_list headers else []) ++ data.

(** [save_data]: the file is opened in append mode, which creates it when it
    does not exist and keeps what it holds when it does. *)
Definition save_data (name : string) (data : file) (headers : option row)
    (fs : filesystem) : filesystem :=
  let file_exists := path_exists name fs in
  <[name := default [] (fs !! name) ++ rows_written file_exists data headers]> fs.

(** ** Library functions the program calls *)

(** [list.__getitem__] at a constant, non-negative index *)
Definition getitem (r : row) (i : nat) : result string :=
  match r !! i with
  | Some field => Ok field
  | None => Raise IndexError
  end.

Definition digit_val (c : ascii) : option Z :=
  let n := Z.of_nat (nat_of_ascii c) in
  if (48 <=? n) && (n <=? 57) then Some (n - 48) else None.

(** White space as [int] strips it: characters 9 to 13, 28 to 31 and the
    blank.  Strings are sequences of bytes here, so the digits and blanks
    Unicode has beyond ASCII are not covered. *)
Definition is_py_space (c : ascii) : bool :=
  let n := Z.of_nat (nat_of_ascii c) in
  ((9 <=? n) && (n <=? 13)) || ((28 <=? n) && (n <=? 32)).

(** Decimal digits, a single underscore allowed between two digits. *)
Fixpoint parse_digits (acc : Z) (after_digit : bool) (s : list ascii) : option Z :=
  match s with
  | [] => if after_digit then Some acc else None
  | c :: s' =>
      match digit_val c with
      | Some d => parse_digits (10 * acc + d) true s'
      | None =>
          if Ascii.eqb c "_" && after_digit then parse_digits acc false s' else None
      end
  end.

Definition parse_signed (s : list ascii) : option Z :=
  match s with
  | c :: s' =>
      if Ascii.eqb c "-" then Z.opp <$> parse_digits 0 false s'
      else if Ascii.eqb c "+" then parse_digits 0 false s'
      else parse_digits 0 false s
  | [] => None
  end.

Fixpoint lstrip (s : list ascii) : list ascii :=
  match s with
  | c :: s' => if is_py_space c then lstrip s' else s
  | [] => []
  end.

Definition strip (s : list ascii) : list ascii :=
  rev (lstrip (rev (lstrip s))).

(** [int(s)] for a string [s], base ten *)
Definition py_int (s : string) : result Z :=
  match parse_signed (strip (list_ascii_of_string s)) with
  | Some z => Ok z
  | None => Raise ValueError
  end.

(** *** Dates *)

Record datetime : Set := { ordinal : Z; micros : Z }.

Definition MAXORDINAL : Z := 3652059.

Definition is_leap (y : Z) : bool :=
  (y mod 4 =? 0) && (negb (y mod 100 =? 0) || (y mod 400 =? 0)).

Definition days_before_year (y : Z) : Z :=
  let p := y - 1 in p * 365 + p / 4 - p / 100 + p / 400.

Definition days_in_month (y m : Z) : Z :=
  if (m =? 2) && is_leap y then 29
  else nth (Z.to_nat m) [0; 31; 28; 31; 30; 31; 30; 31; 31; 30; 31; 30; 31] 0.

Definition days_before_month (y m : Z) : Z :=
  nth (Z.to_nat m) [0; 0; 31; 59; 90; 120; 151; 181; 212; 243; 273; 304; 334] 0
  + (if (2 <? m) && is_leap y then 1 else 0).

Definition ymd2ord (y m d : Z) : Z :=
  days_before_year y + days_before_month y m + d.

(** [date(y, m, d)] at midnight, with the range checks of the constructor *)
Definition make_date (y m d : Z) : result datetime :=
  if (1 <=? y) && (y <=? 9999) && (1 <=? m) && (m <=? 12)
     && (1 <=? d) && (d <=? days_in_month y m)
  then Ok {| ordinal := ymd2ord y m d; micros := 0 |}
  else Raise ValueError.

Definition ord2ymd (n0 : Z) : Z * Z * Z :=
  let n := n0 - 1 in
  let n400 := n / 146097 in
  let n := n mod 146097 in
  let n100 := n / 36524 in
  let n := n mod 36524 in
  let n4 := n / 1461 in
  let n := n mod 1461 in
  let n1 := n / 365 in
  let n := n mod 365 in
  let year := n400 * 400 + 1 + n100 * 100 + n4 * 4 + n1 in
  if (n1 =? 4) || (n100 =? 4) then (year - 1, 12, 31)
  else
    let leapyear := (n1 =? 3) && (negb (n4 =? 24) || (n100 =? 3)) in
    let month := Z.shiftr (n + 50) 5 in
    let preceding :=
      nth (Z.to_nat month) [0; 0; 31; 59; 90; 120; 151; 181; 212; 243; 273; 304; 334] 0
      + (if (2 <? month) && leapyear then 1 else 0) in
    if n <? preceding then
      let month' := month - 1 in
      let preceding' :=
        preceding
        - (nth (Z.to_nat month') [0; 31; 28; 31; 30; 31; 30; 31; 31; 30; 31; 30; 31] 0
           + (if (month' =? 2) && leapyear then 1 else 0)) in
      (year, month', n - preceding' + 1)
    else (year, month, n - preceding + 1).

(** [datetime.weekday]: Monday is 0 *)
Definition weekday (t : datetime) : Z := (ordinal t + 6) mod 7.

(** [t + timedelta(days=k)], for [k] of either sign *)
Definition add_days (t : datetime) (k : Z) : result datetime :=
  let o := ordinal t + k in
  if (1 <=? o) && (o <=? MAXORDINAL) then Ok {| ordinal := o; micros := micros t |}
  else Raise OverflowError.

(** [a <= b] on [datetime] *)
Definition datetime_le (a b : datetime) : bool :=
  (ordinal a <? ordinal b) || ((ordinal a =? ordinal b) && (micros a <=? micros b)).

Definition in_range (lo hi : Z) (c : ascii) : option Z :=
  d ← digit_val c; if (lo <=? d) && (d <=? hi) then Some d else None.

(** The alternatives of the directive [%m], tried in the library's order:
    [1[0-2]], [0[1-9]], [[1-9]]. *)
Definition parse_month (s : list ascii) : option (Z * list ascii) :=
  match s with
  | a :: b :: s' =>
      match in_range 1 1 a, in_range 0 2 b, in_range 0 0 a, in_range 1 9 b with
      | Some _, Some d, _, _ => Some (10 + d, s')
      | _, _, Some _, Some d => Some (d, s')
      | _, _, _, _ => d ← in_range 1 9 a; Some (d, b :: s')
      end
  | [a] => d ← in_range 1 9 a; Some (d, [])
  | [] => None
  end.

(** The alternatives of [%d]: [3[0-1]], [[1-2]\d], [0[1-9]], [[1-9]] and a
    blank followed by [[1-9]]. *)
Definition parse_day (s : list ascii) : option (Z * list ascii) :=
  match s with
  | a :: b :: s' =>
      match in_range 3 3 a, in_range 0 1 b with
      | Some _, Some d => Some (30 + d, s')
      | _, _ =>
          match in_range 1 2 a, in_range 0 9 b with
          | Some t, Some d => Some (10 * t + d, s')
          | _, _ =>
              match in_range 0 0 a, in_range 1 9 b with
              | Some _, Some d => Some (d, s')
              | _, _ =>
                  match in_range 1 9 a with
                  | Some d => Some (d, b :: s')
                  | None =>
                      if Ascii.eqb a " " then d ← in_range 1 9 b; Some (d, s') else None
                  end
              end
          end
      end
  | [a] => d ← in_range 1 9 a; Some (d, [])
  | [] => None
  end.

(** [datetime.strptime(s, '%Y-%m-%d')]; text left over after the day is an
    error. *)
Definition strptime (s : string) : result datetime :=
  match list_ascii_of_string s with
  | y1 :: y2 :: y3 :: y4 :: dash1 :: s1 =>
      match digit_val y1, digit_val y2, digit_val y3, digit_val y4, parse_month s1 with
      | Some a, Some b, Some c, Some d, Some (m, dash2 :: s2) =>
          if Ascii.eqb dash1 "-" && Ascii.eqb dash2 "-" then
            match parse_day s2 with
            | Some (dd, []) => make_date (1000 * a + 100 * b + 10 * c + d) m dd
            | _ => Raise ValueError
            end
          else Raise ValueError
      | _, _, _, _, _ => Raise ValueError
      end
  | _ => Raise ValueError
  end.

Definition digit_char (d : Z) : ascii := ascii_of_nat (Z.to_nat (48 + d mod 10)).

(** [t.strftime('%Y-%m-%d')], the year on four digits *)
Definition strftime (t : datetime) : string :=
  let '(y, m, d) := ord2ymd (ordinal t) in
  string_of_list_ascii
    [digit_char (y / 1000); digit_char (y / 100); digit_char (y / 10); digit_char y;
     "-"%char; digit_char (m / 10); digit_char m;
     "-"%char; digit_char (d / 10); digit_char d].

(** *** Numbers *)

(** A float result: not-a-number, or a finite value kept exact. *)
Inductive npfloat : Set :=
| NaN
| Fin (q : Q).

Definition py_sum (l : list Z) : Z := fold_right Z.add 0 l.

(** [np.mean]: not-a-number on an empty sequence *)
Definition np_mean (l : list Z) : npfloat :=
  match l with
  | [] => NaN
  | _ :: _ => Fin (inject_Z (py_sum l) / inject_Z (Z.of_nat (length l)))
  end.

(** [np.max] and [np.min] raise on an empty sequence *)
Definition np_max (l : list Z) : result Z :=
  match l with
  | [] => Raise ValueError
  | x :: l' => Ok (fold_left Z.max l' x)
  end.

Definition np_min (l : list Z) : result Z :=
  match l with
  | [] => Raise ValueError
  | x :: l' => Ok (fold_left Z.min l' x)
  end.

Fixpoint insert_sorted (x : Z) (l : list Z) : list Z :=
  match l with
  | [] => [x]
  | y :: l' => if x <=? y then x :: l else y :: insert_sorted x l'
  end.

Definition sort (l : list Z) : list Z := fold_right insert_sorted [] l.

(** [np.median]: the middle of the sorted sequence, the mean of the two
    middle values when their number is even *)
Definition np_median (l : list Z) : npfloat :=
  let s := sort l in
  let n := length l in
  match n with
  | O => NaN
  | S _ =>
      if Nat.even n
      then Fin (inject_Z (nth (n / 2 - 1) s 0 + nth (n / 2) s 0) / inject_Z 2)
      else Fin (inject_Z (nth (n / 2) s 0))
  end.

(** *** Dictionaries, in insertion order *)

Abbreviation dict := (list (string * Z)).

Fixpoint dict_get (d : dict) (k : string) : result Z :=
  match d with
  | [] => Raise KeyError
  | (k', v) :: d' => if String.eqb k' k then Ok v else dict_get d' k
  end.

(** [d[k] = v]: a key already there keeps its place *)
Fixpoint dict_set (d : dict) (k : string) (v : Z) : dict :=
  match d with
  | [] => [(k, v)]
  | (k', v') :: d' =>
      if String.eqb k' k then (k, v) :: d' else (k', v') :: dict_set d' k v
  end.

(** Unpacking [zip] of the items of [d] into two names: with no item,
    [zip] yields nothing to unpack. *)
Definition unzip_items (d : dict) : result (list string * list Z) :=
  match d with
  | [] => Raise ValueError
  | _ :: _ => Ok (map fst d, map snd d)
  end.

(** ** Reports *)

(** What a reporting command hands to the presentation layer. *)
Inductive report : Set :=
| NoData
| Histogram (branch_sales : list Z)
| PriceStatistics (average_price : npfloat) (max_price min_price : Z) (median_price : npfloat)
| WeeklySales (total_sales : Z) (average_sales : npfloat)
| TotalSales (total_sales : Z)
| BarChart (branch_ids : list string) (sales_amounts : list Z).

(** ** Aggregators *)

(** [[expr(sale) for sale in rows if cond(sale)]]: the condition is
    evaluated first, the expression only when it holds, row after row. *)
Fixpoint comprehension (cond : row -> result bool) (expr : row -> result Z)
    (rows : file) : result (list Z) :=
  match rows with
  | [] => Ok []
  | sale :: rest =>
      b ← cond sale;
      if b : bool then
        v ← expr sale;
        vs ← comprehension cond expr rest;
        Ok (v :: vs)
      else comprehension cond expr rest
  end.

(** [int(sale[2])] *)
Definition amount_sold (sale : row) : result Z :=
  field ← getitem sale 2; py_int field.

(** [sale[i] == key] *)
Definition field_is (i : nat) (key : string) (sale : row) : result bool :=
  field ← getitem sale i; Ok (String.eqb field key).

Definition monthly_sales_analysis (branch_id : string) (fs : filesystem) : result report :=
  sales_data ← load_data SALES_FILE fs;
  branch_sales ← comprehension (field_is 0 branch_id) amount_sold sales_data;
  match branch_sales with
  | [] => Ok NoData
  | _ :: _ => Ok (Histogram branch_sales)
  end.

Definition price_analysis (product_id : string) (fs : filesystem) : result report :=
  sales_data ← load_data SALES_FILE fs;
  product_sales ← comprehension (field_is 1 product_id) amount_sold sales_data;
  match product_sales with
  | [] => Ok NoData
  | _ :: _ =>
      let average_price := np_mean product_sales in
      max_price ← np_max product_sales;
      min_price ← np_min product_sales;
      let median_price := np_median product_sales in
      Ok (PriceStatistics average_price max_price min_price median_price)
  end.

(** [start_of_week <= datetime.strptime(sale[3], '%Y-%m-%d') <= end_of_week] *)
Definition in_week (start_of_week end_of_week : datetime) (sale : row) : result bool :=
  field ← getitem sale 3;
  date ← strptime field;
  Ok (datetime_le start_of_week date && datetime_le date end_of_week).

(** The comprehension of lines 207 and 208. *)
Definition weekly_sales (today : datetime) (sales_data : file) : result (list Z) :=
  start_of_week ← add_days today (- weekday today);
  end_of_week ← add_days start_of_week 6;
  comprehension (in_week start_of_week end_of_week) amount_sold sales_data.

(** [today] is the value of [datetime.today()]: the current day together
    with the current time of day. *)
Definition weekly_sales_analysis (today : datetime) (fs : filesystem) : result report :=
  sales_data ← load_data SALES_FILE fs;
  weekly_sales ← weekly_sales today sales_data;
  let total_sales := py_sum weekly_sales in
  let average_sales :=
    match weekly_sales with
    | [] => Fin 0
    | _ :: _ => np_mean weekly_sales
    end in
  Ok (WeeklySales total_sales average_sales).

Definition total_sales_amount_analysis (fs : filesystem) : result report :=
  sales_data ← load_data SALES_FILE fs;
  amounts ← comprehension (fun _ => Ok true) amount_sold sales_data;
  Ok (TotalSales (py_sum amounts)).

(** [{branch[0]: 0 for branch in branches}] *)
Fixpoint init_monthly_sales (monthly_sales : dict) (branches : file) : result dict :=
  match branches with
  | [] => Ok monthly_sales
  | branch :: rest =>
      branch_id ← getitem branch 0;
      init_monthly_sales (dict_set monthly_sales branch_id 0) rest
  end.

(** The loop of lines 235 to 237.  The augmented assignment reads
    [monthly_sales[branch_id]] before it evaluates [int(sale[2])]. *)
Fixpoint accumulate (monthly_sales : dict) (sales_data : file) : result dict :=
  match sales_data with
  | [] => Ok monthly_sales
  | sale :: rest =>
      branch_id ← getitem sale 0;
      current ← dict_get monthly_sales branch_id;
      amount ← amount_sold sale;
      accumulate (dict_set monthly_sales branch_id (current + amount)) rest
  end.

Definition all_branches_monthly_sales_analysis (fs : filesystem) : result report :=
  sales_data ← load_data SALES_FILE fs;
  branches ← load_data BRANCHES_FILE fs;
  monthly_sales ← init_monthly_sales [] branches;
  monthly_sales ← accumulate monthly_sales sales_data;
  '(branch_ids, sales_amounts) ← unzip_items monthly_sales;
  Ok (BarChart branch_ids sales_amounts).

(** ** Command pattern *)

(** What a command runs in: durable storage, the lines the operator is
    about to type, and the clock. *)
Record world : Type := { files : filesystem; stdin : list string; clock : datetime }.

(** [input(prompt)] *)
Definition input (w : world) : result (string * world) :=
  match stdin w with
  | line :: rest => Ok (line, {| files := files w; stdin := rest; clock := clock w |})
  | [] => Raise EOFError
  end.

Definition set_files (w : world) (fs : filesystem) : world :=
  {| files := fs; stdin := stdin w; clock := clock w |}.

Inductive Command : Set :=
| AddBranchCommand
| AddSaleCommand
| MonthlySalesAnalysisCommand (branch_id : string)
| PriceAnalysisCommand (product_id : string)
| WeeklySalesAnalysisCommand
| TotalSalesAmountAnalysisCommand
| AllBranchesMonthlySalesAnalysisCommand.

Definition AddBranchCommand_execute (w : world) : result world :=
  branches ← load_data BRANCHES_FILE (files w);
  '(branch_id, w) ← input w;
  '(branch_name, w) ← input w;
  '(location, w) ← input w;
  let new_branch := [branch_id; branch_name; location] in
  let branches := branches ++ [new_branch] in
  let headers := ["Branch ID"; "Branch Name"; "Location"] in
  Ok (set_files w (save_data BRANCHES_FILE branches (Some headers) (files w))).

Definition AddSaleCommand_execute (w : world) : result world :=
  sales ← load_data SALES_FILE (files w);
  '(branch_id, w) ← input w;
  '(product_id, w) ← input w;
  '(amount_sold, w) ← input w;
  let new_sale := [branch_id; product_id; amount_sold; strftime (clock w)] in
  let sales := sales ++ [new_sale] in
  let headers := ["Branch ID"; "Product ID"; "Amount Sold"; "Date"] in
  Ok (set_files w (save_data SALES_FILE sales (Some headers) (files w))).

(** [execute]: the world after the command, and the report of a reporting
    command. *)
Definition execute (c : Command) (w : world) : result (option report * world) :=
  match c with
  | AddBranchCommand => w' ← AddBranchCommand_execute w; Ok (None, w')
  | AddSaleCommand => w' ← AddSaleCommand_execute w; Ok (None, w')
  | MonthlySalesAnalysisCommand branch_id =>
      r ← monthly_sales_analysis branch_id (files w); Ok (Some r, w)
  | PriceAnalysisCommand product_id =>
      r ← price_analysis product_id (files w); Ok (Some r, w)
  | WeeklySalesAnalysisCommand =>
      r ← weekly_sales_analysis (clock w) (files w); Ok (Some r, w)
  | TotalSalesAmountAnalysisCommand =>
      r ← total_sales_amount_analysis (files w); Ok (Some r, w)
  | AllBranchesMonthlySalesAnalysisCommand =>
      r ← all_branches_monthly_sales_analysis (files w); Ok (Some r, w)
  end.

Definition is_reporting (c : Command) : bool :=
  match c with
  | AddBranchCommand | AddSaleCommand => false
  | _ => true
  end.

(** ** Pure counterparts used in the statements *)

Definition is_ok {A} (r : result A) : bool :=
  match r with
  | Ok _ => true
  | Raise _ => false
  end.

(** The name resolves to a loader. *)
Definition known_kind (name : string) : Prop :=
  is_ok (DataLoaderFactory_create_loader name) = true.

(** Field [i] of the row is [key]. *)
Definition field_matches (i : nat) (key : string) (sale : row) : bool :=
  match sale !! i with
  | Some field => String.eqb field key
  | None => false
  end.

(** The amount of a row whose third field is an integer. *)
Definition amount_of (sale : row) : Z :=
  match amount_sold sale with
  | Ok z => z
  | Raise _ => 0
  end.

(** [batches] appended one call after the other, each with [headers]. *)
Definition append_all (name : string) (headers : option row) (batches : list file)
    (fs : filesystem) : filesystem :=
  fold_left (fun fs data => save_data name data headers fs) batches fs.

(** A Branch container with its header and one record. *)
Definition one_branch : filesystem :=
  {[ BRANCHES_FILE := [["Branch ID"; "Branch Name"; "Location"];
                       ["B1"; "Main"; "Colombo"]] ]}.

(** A Sale container with its header and one record. *)
Definition one_sale : filesystem :=
  {[ SALES_FILE := [["Branch ID"; "Product ID"; "Amount Sold"; "Date"];
                    ["B1"; "P1"; "100"; "2024-01-01"]] ]}.

Definition noon_2024_01_03 : datetime :=
  {| ordinal := 738888; micros := 43200000000 |}.

(** The amounts of the rows whose field [i] is [key], in container order. *)
Definition amounts_where (i : nat) (key : string) (sales : file) : list Z :=
  map amount_of (filter (fun r => r !! i = Some key) sales).

(** The sales of the aggregation example, after the header of the Sale
    container. *)
Definition example_sales : file :=
  [["B1"; "P1"; "100"; "2024-01-01"];
   ["B1"; "P2"; "200"; "2024-01-02"];
   ["B2"; "P1"; "50"; "2024-01-03"]].

Definition example_files : filesystem :=
  {[ SALES_FILE := ["Branch ID"; "Product ID"; "Amount Sold"; "Date"] :: example_sales;
     BRANCHES_FILE := [["Branch ID"; "Branch Name"; "Location"];
                       ["B1"; "Main"; "Colombo"];
                       ["B2"; "North"; "Kandy"]] ]}.

(** A Sale container in which the rows of branch B2 and of product P2 have
    amounts that are not integers. *)
Definition malformed_elsewhere : filesystem :=
  {[ SALES_FILE := [["Branch ID"; "Product ID"; "Amount Sold"; "Date"];
                    ["B1"; "P1"; "100"; "2024-01-01"];
                    ["B2"; "P2"; "a lot"; "2024-01-02"];
                    ["B2"; "P2"; ""; "2024-01-03"]] ]}.

(** The branch_id of a Branch row. *)
Definition branch_id_of (branch : row) : string := default "" (branch !! 0%nat).

(** Every value of the list once, at the place of its first occurrence. *)
Fixpoint first_occurrences (l : list string) : list string :=
  match l with
  | [] => []
  | k :: l' => k :: filter (fun k' => k' <> k) (first_occurrences l')
  end.

(** The accumulator with every key at zero. *)
Definition zeros (keys : list string) : dict := map (fun k => (k, 0)) keys.

(** The sale names a branch of [keys] and has an integer amount. *)
Definition sale_known (keys : list string) (sale : row) : Prop :=
  exists k, sale !! 0%nat = Some k /\ k ∈ keys /\ is_ok (amount_sold sale) = true.

(** Every entry of [d] increased by the amounts sold by its branch. *)
Definition with_totals (d : dict) (sales : file) : dict :=
  map (fun e => (e.1, e.2 + py_sum (amounts_where 0 e.1 sales))) d.

(** The clock reads a time of day, on a date whose week ends before the
    last representable day. *)
Definition clock_in_range (t : datetime) : Prop :=
  1 <= ordinal t /\ ordinal t - weekday t + 6 <= MAXORDINAL
  /\ 0 <= micros t < 86400000000.

Definition midnight (day : Z) : datetime := {| ordinal := day; micros := 0 |}.

(** The Monday of the week of [t]. *)
Definition monday_of (t : datetime) : Z := ordinal t - weekday t.

(** The row has an integer amount and a date in the fixed format. *)
Definition well_formed_sale (sale : row) : bool :=
  is_ok (amount_sold sale) && is_ok (field ← getitem sale 3; strptime field).

(** ** Login and main program *)

(** The failures of the code that opens a file itself: the file is not
    there, or an exception of the kinds above. *)
Inductive fault : Set :=
| FileNotFoundError
| Uncaught (e : exn).

Inductive outcome (A : Type) : Type :=
| Done (a : A)
| Failed (f : fault).
Arguments Done {A} a.
Arguments Failed {A} f.

#[global] Instance outcome_ret : MRet outcome := fun A a => Done a.
#[global] Instance outcome_bind : MBind outcome := fun A B f m =>
  match m with
  | Done a => f a
  | Failed e => Failed e
  end.

Definition lift {A} (r : result A) : outcome A :=
  match r with
  | Ok a => Done a
  | Raise e => Failed (Uncaught e)
  end.

(** [open(name, mode='r')] read through [csv.reader]: every row, the first
    one included. *)
Definition open_read (name : string) (fs : filesystem) : outcome file :=
  match fs !! name with
  | Some content => Done content
  | None => Failed FileNotFoundError
  end.

(** The loop of lines 146 to 149: [row[1]] is read only when [row[0]] is the
    user name. *)
Fixpoint login_rows (username password : string) (rows : file) : result bool :=
  match rows with
  | [] => Ok false
  | r :: rest =>
      name ← getitem r 0;
      if String.eqb name username then
        secret ← getitem r 1;
        if String.eqb secret password then Ok true
        else login_rows username password rest
      else login_rows username password rest
  end.

Definition login (w : world) : outcome (bool * world) :=
  '(username, w) ← lift (input w);
  '(password, w) ← lift (input w);
  rows ← open_read USER_FILE (files w);
  granted ← lift (login_rows username password rows);
  Done (granted, w).

(** [if not os.path.exists(name): save_data(name, [], headers=headers)] *)
Definition create_if_missing (name : string) (headers : row) (fs : filesystem)
    : filesystem :=
  if path_exists name fs then fs else save_data name [] (Some headers) fs.

(** Lines 255 to 270 of [main]. *)
Definition main_create_files (fs : filesystem) : filesystem :=
  let fs := create_if_missing USER_FILE ["Username"; "Password"] fs in
  let fs := create_if_missing BRANCHES_FILE ["Branch ID"; "Branch Name"; "Location"] fs in
  let fs := create_if_missing PRODUCTS_FILE ["Product ID"; "Product Name"] fs in
  create_if_missing SALES_FILE ["Branch ID"; "Product ID"; "Amount Sold"; "Date"] fs.

(** An entry of the command map: a command without parameter, a command
    built from one parameter, or the log out action. *)
Inductive entry : Set :=
| Niladic (c : Command)
| Unary (make : string -> Command)
| LogOut.

(** The command map of lines 281 to 290. *)
Definition commands (choice : string) : option entry :=
  if String.eqb choice "1" then Some (Niladic AddBranchCommand)
  else if String.eqb choice "2" then Some (Niladic AddSaleCommand)
  else if String.eqb choice "3" then Some (Unary MonthlySalesAnalysisCommand)
  else if String.eqb choice "4" then Some (Unary PriceAnalysisCommand)
  else if String.eqb choice "5" then Some (Niladic WeeklySalesAnalysisCommand)
  else if String.eqb choice "7" then Some (Niladic TotalSalesAmountAnalysisCommand)
  else if String.eqb choice "8" then Some (Niladic AllBranchesMonthlySalesAnalysisCommand)
  else if String.eqb choice "9" then Some LogOut
  else None.

(** The login loop of lines 273 to 278.  Every turn reads two lines, so
    [fuel] bounds the number of turns; [None] is fuel run out. *)
Fixpoint main_login_loop (fuel : nat) (w : world) : option (outcome world) :=
  match fuel with
  | O => None
  | S fuel =>
      match login w with
      | Failed f => Some (Failed f)
      | Done (true, w) => Some (Done w)
      | Done (false, w) => main_login_loop fuel w
      end
  end.

(** The menu loop of lines 293 to 318.  The choices 3 and 4 are the ones
    whose entry takes a parameter, 9 the one that logs out. *)
Fixpoint main_menu_loop (fuel : nat) (w : world) : option (outcome world) :=
  match fuel with
  | O => None
  | S fuel =>
      match input w with
      | Raise e => Some (Failed (Uncaught e))
      | Ok (choice, w) =>
          match commands choice with
          | Some LogOut => Some (Done w)
          | Some (Unary make) =>
              match input w with
              | Raise e => Some (Failed (Uncaught e))
              | Ok (param, w) =>
                  match execute (make param) w with
                  | Raise e => Some (Failed (Uncaught e))
                  | Ok (_, w) => main_menu_loop fuel w
                  end
              end
          | Some (Niladic command) =>
              match execute command w with
              | Raise e => Some (Failed (Uncaught e))
              | Ok (_, w) => main_menu_loop fuel w
              end
          | None => main_menu_loop fuel w
          end
      end
  end.

(** [main]: the world when the operator has logged out, or the failure
    that ended the session. *)
Definition main (fuel : nat) (w : world) : option (outcome world) :=
  let w := set_files w (main_create_files (files w)) in
  match main_login_loop fuel w with
  | Some (Done w) => main_menu_loop fuel w
  | r => r
  end.

(** The container a command writes to, if any. *)
Definition target (c : Command) : option string :=
  match c with
  | AddBranchCommand => Some BRANCHES_FILE
  | AddSaleCommand => Some SALES_FILE
  | _ => None
  end.

(** The command executed [n] times in a row. *)
Fixpoint execute_times (n : nat) (c : Command) (w : world) : result world :=
  match n with
  | O => Ok w
  | S n => r ← execute c w; execute_times n c r.2
  end.

(** The record a mutating command builds from the three lines it reads. *)
Definition new_record (c : Command) (w : world) (x y z : string) : row :=
  match c with
  | AddSaleCommand => [x; y; z; strftime (clock w)]
  | _ => [x; y; z]
  end.

(** The month and the day of the day number [n], counted from 0, of a
    year: the last steps of [ord2ymd]. *)
Definition month_day (leapyear : bool) (n : Z) : Z * Z :=
  let month := Z.shiftr (n + 50) 5 in
  let preceding :=
    nth (Z.to_nat month) [0; 0; 31; 59; 90; 120; 151; 181; 212; 243; 273; 304; 334] 0
    + (if (2 <? month) && leapyear then 1 else 0) in
  if n <? preceding then
    let month' := month - 1 in
    let preceding' :=
      preceding
      - (nth (Z.to_nat month') [0; 31; 28; 31; 30; 31; 30; 31; 31; 30; 31; 30; 31] 0
         + (if (month' =? 2) && leapyear then 1 else 0)) in
    (month', n - preceding' + 1)
  else (month, n - preceding + 1).

(** [month_day] names a day of the calendar, the one with that number. *)
Definition month_day_ok (leapyear : bool) (n : Z) : bool :=
  let '(m, d) := month_day leapyear n in
  (1 <=? m) && (m <=? 12) && (1 <=? d)
  && (d <=? (if (m =? 2) && leapyear then 29
             else nth (Z.to_nat m) [0; 31; 28; 31; 30; 31; 30; 31; 31; 30; 31; 30; 31] 0))
  && (nth (Z.to_nat m) [0; 0; 31; 59; 90; 120; 151; 181; 212; 243; 273; 304; 334] 0
      + (if (2 <? m) && leapyear then 1 else 0) + d =? n + 1).

(** The two digits of a month or of a day are read back as that number. *)
Definition two_digits_ok (n : Z) : bool :=
  match parse_day [digit_char (n / 10); digit_char n] with
  | Some (d, []) => d =? n
  | _ => false
  end.

(** The day a well-formed Sale row is dated. *)
Definition sale_day (sale : row) : Z :=
  match field ← getitem sale 3; strptime field with
  | Ok date => ordinal date
  | Raise _ => 0
  end.

(** The first day whose sales the weekly report run at [today] keeps: the
    Monday of the week at midnight sharp, the Tuesday at any other time. *)
Definition first_day_kept (today : datetime) : Z :=
  if micros today =? 0 then monday_of today else monday_of today + 1.

(** Storage [fs'] holds what [fs] held and more: the rows of every file of
    [fs] are still there, in place, at the head of the file, and only the
    Branch and Sale containers may differ at all. *)
Definition extends (fs fs' : filesystem) : Prop :=
  forall name,
    (forall content, fs !! name = Some content ->
       exists added, fs' !! name = Some (content ++ added))
    /\ (name <> BRANCHES_FILE -> name <> SALES_FILE -> fs' !! name = fs !! name).

(** * Record store *)

Section Store.
Variable name : string.

Lemma create_loader_known :
  known_kind name ->
  DataLoaderFactory_create_loader name = Ok {| file_name := name |}.
Proof.
  unfold known_kind, DataLoaderFactory_create_loader.
  repeat (destruct (endswith name _); [reflexivity|]).
  discriminate.
Qed.

Lemma load_data_known (fs : filesystem) :
  known_kind name ->
  load_data name fs = CSVLoader_load_data {| file_name := name |} fs.
Proof.
  intros Hk. unfold load_data. rewrite (create_loader_known Hk). reflexivity.
Qed.

Lemma load_data_content (fs : filesystem) (header : row) (data : file) :
  known_kind name ->
  fs !! name = Some (header :: data) ->
  load_data name fs = Ok data.
Proof.
  intros Hk Hfs. rewrite (load_data_known fs Hk).
  unfold CSVLoader_load_data; simpl. rewrite Hfs. reflexivity.
Qed.

Lemma save_data_lookup (data : file) (headers : option row) (fs : filesystem) :
  save_data name data headers fs !! name
  = Some (default [] (fs !! name) ++ rows_written (path_exists name fs) data headers).
Proof. unfold save_data. apply lookup_insert_eq. Qed.

Lemma save_data_other (other : string) (data : file) (headers : option row)
    (fs : filesystem) :
  name <> other -> save_data name data headers fs !! other = fs !! other.
Proof. intros Hne. unfold save_data. by apply lookup_insert_ne. Qed.

Lemma path_exists_absent (fs : filesystem) :
  fs !! name = None -> path_exists name fs = false.
Proof.
  intros H. unfold path_exists. apply bool_decide_eq_false.
  rewrite H. intros [x Hx]; discriminate.
Qed.

Lemma path_exists_present (fs : filesystem) (content : file) :
  fs !! name = Some content -> path_exists name fs = true.
Proof.
  intros H. unfold path_exists. apply bool_decide_eq_true. rewrite H. eauto.
Qed.

(** The creating call writes the header, then the rows. *)
Lemma save_data_creates (data : file) (h : string) (hs : row) (fs : filesystem) :
  fs !! name = None ->
  save_data name data (Some (h :: hs)) fs !! name = Some ((h :: hs) :: data).
Proof.
  intros H. rewrite save_data_lookup, (path_exists_absent fs H), H. reflexivity.
Qed.

(** A call on a file that exists writes the rows only. *)
Lemma save_data_appends (data : file) (headers : option row) (fs : filesystem)
    (content : file) :
  fs !! name = Some content ->
  save_data name data headers fs !! name = Some (content ++ data).
Proof.
  intros H. rewrite save_data_lookup, (path_exists_present fs content H), H.
  reflexivity.
Qed.

Lemma append_all_existing (headers : option row) (batches : list file) :
  forall (fs : filesystem) (content : file),
    fs !! name = Some content ->
    append_all name headers batches fs !! name = Some (content ++ concat batches).
Proof.
  induction batches as [|data batches IH]; intros fs content H; simpl.
  - by rewrite app_nil_r.
  - rewrite (IH _ (content ++ data)).
    + by rewrite <- app_assoc.
    + by apply save_data_appends.
Qed.

Lemma append_all_creates (h : string) (hs : row) (data : file) (batches : list file)
    (fs : filesystem) :
  fs !! name = None ->
  append_all name (Some (h :: hs)) (data :: batches) fs !! name
  = Some ((h :: hs) :: concat (data :: batches)).
Proof.
  intros H. simpl.
  rewrite (append_all_existing _ batches _ ((h :: hs) :: data)).
  - reflexivity.
  - by apply save_data_creates.
Qed.

Lemma append_all_load (h : string) (hs : row) (batches : list file) (fs : filesystem) :
  known_kind name ->
  fs !! name = None ->
  load_data name (append_all name (Some (h :: hs)) batches fs) = Ok (concat batches).
Proof.
  intros Hk H. destruct batches as [|data batches].
  - simpl. rewrite (load_data_known fs Hk).
    unfold CSVLoader_load_data; simpl. by rewrite H.
  - eapply load_data_content; [done|]. by apply append_all_creates.
Qed.
End Store.

Lemma known_kind_BRANCHES_FILE : known_kind BRANCHES_FILE.
Proof. reflexivity. Qed.

Lemma known_kind_SALES_FILE : known_kind SALES_FILE.
Proof. reflexivity. Qed.

(** C7: for a name that resolves to a known kind, loading a container that
    is not on durable storage returns the empty sequence; no fault is
    raised. *)
Theorem load_absent_container (name : string) (fs : filesystem) :
  known_kind name ->
  fs !! name = None ->
  load_data name fs = Ok [].
Proof.
  intros Hk H. rewrite (load_data_known name fs Hk).
  unfold CSVLoader_load_data; simpl. by rewrite H.
Qed.

Lemma load_absent_container_witness :
  known_kind "data/sales.csv" /\ (∅ : filesystem) !! "data/sales.csv" = None
  /\ load_data "data/sales.csv" ∅ = Ok [].
Proof.
  split; [reflexivity|]. split; [reflexivity|].
  apply load_absent_container; reflexivity.
Defined.



(** C6: on a container that is not yet on durable storage and is created
    with a header, the first append writes the header and the second does
    not, whatever header it is given; the container then holds the header
    once, before the rows of both calls, and every later append leaves that
    first row in place and adds its rows after those already there, so that
    loading returns the data rows without the header. *)
Theorem header_written_once (name : string) (h : string) (hs : row)
    (first second : file) (headers' : option row) (fs : filesystem) :
  known_kind name ->
  fs !! name = None ->
  let fs1 := save_data name first (Some (h :: hs)) fs in
  let fs2 := save_data name second headers' fs1 in
  writes_header (path_exists name fs) (Some (h :: hs)) = true
  /\ writes_header (path_exists name fs1) headers' = false
  /\ fs2 !! name = Some ((h :: hs) :: first ++ second)
  /\ forall later : list file,
      append_all name headers' later fs2 !! name
      = Some ((h :: hs) :: first ++ second ++ concat later)
      /\ load_data name (append_all name headers' later fs2)
         = Ok (first ++ second ++ concat later).
Proof.
  intros Hk H fs1 fs2.
  assert (H1 : fs1 !! name = Some ((h :: hs) :: first))
    by (by apply save_data_creates).
  assert (H2 : fs2 !! name = Some ((h :: hs) :: first ++ second))
    by (by apply (save_data_appends name second headers' fs1 _ H1)).
  split; [|split; [|split]].
  - by rewrite (path_exists_absent name fs H).
  - by rewrite (path_exists_present name fs1 _ H1).
  - exact H2.
  - intros later.
    assert (H3 : append_all name headers' later fs2 !! name
                 = Some ((h :: hs) :: first ++ second ++ concat later)).
    { rewrite (append_all_existing name headers' later fs2 _ H2).
      simpl. by rewrite <- app_assoc. }
    split; [exact H3|]. by apply (load_data_content name _ (h :: hs)).
Qed.

Lemma header_written_once_witness :
  let header := ["Branch ID"; "Branch Name"; "Location"] in
  let fs1 := save_data BRANCHES_FILE [] (Some header) ∅ in
  let fs2 := save_data BRANCHES_FILE [["B1"; "Main"; "Colombo"]] (Some header) fs1 in
  fs2 !! BRANCHES_FILE = Some [header; ["B1"; "Main"; "Colombo"]].
Proof.
  intros header fs1 fs2.
  apply (header_written_once BRANCHES_FILE "Branch ID" ["Branch Name"; "Location"]
           [] [["B1"; "Main"; "Colombo"]] (Some header) ∅); reflexivity.
Defined.

(** Without a header, or with an empty one, the creating call writes the
    rows only, and loading then takes the first record for the header. *)
Lemma save_data_without_header (name : string) (R : row) (fs : filesystem) :
  known_kind name ->
  fs !! name = None ->
  load_data name (save_data name [R] None fs) = Ok []
  /\ load_data name (save_data name [R] (Some []) fs) = Ok [].
Proof.
  intros Hk H. split.
  - apply (load_data_content name _ R); [done|].
    by rewrite save_data_lookup, (path_exists_absent name fs H), H.
  - apply (load_data_content name _ R); [done|].
    by rewrite save_data_lookup, (path_exists_absent name fs H), H.
Qed.

(** * Mutating commands *)

Section Mutating.
Variables (w : world) (header : row) (records : file).
Variables (a b c : string) (rest : list string).
Hypothesis Hstdin : stdin w = a :: b :: c :: rest.

(** On a container that holds [records], [AddBranchCommand] appends the
    loaded records again, then the new one. *)
Lemma AddBranchCommand_execute_existing :
  files w !! BRANCHES_FILE = Some (header :: records) ->
  exists w',
    AddBranchCommand_execute w = Ok w'
    /\ files w' !! BRANCHES_FILE
       = Some (header :: records ++ records ++ [[a; b; c]])
    /\ load_data BRANCHES_FILE (files w') = Ok (records ++ records ++ [[a; b; c]]).
Proof.
  intros Hfs. unfold AddBranchCommand_execute.
  rewrite (load_data_content BRANCHES_FILE _ header records known_kind_BRANCHES_FILE Hfs).
  unfold input. rewrite Hstdin. simpl.
  eexists; split; [reflexivity|]. simpl.
  assert (He : save_data BRANCHES_FILE (records ++ [[a; b; c]])
                 (Some ["Branch ID"; "Branch Name"; "Location"]) (files w)
               !! BRANCHES_FILE
               = Some (header :: records ++ records ++ [[a; b; c]])).
  { rewrite (save_data_appends BRANCHES_FILE _ _ _ _ Hfs). reflexivity. }
  split; [exact He|].
  by apply (load_data_content BRANCHES_FILE _ header).
Qed.

Lemma AddSaleCommand_execute_existing :
  files w !! SALES_FILE = Some (header :: records) ->
  exists w',
    AddSaleCommand_execute w = Ok w'
    /\ load_data SALES_FILE (files w')
       = Ok (records ++ records ++ [[a; b; c; strftime (clock w)]]).
Proof.
  intros Hfs. unfold AddSaleCommand_execute.
  rewrite (load_data_content SALES_FILE _ header records known_kind_SALES_FILE Hfs).
  unfold input. rewrite Hstdin. simpl.
  eexists; split; [reflexivity|]. simpl.
  apply (load_data_content SALES_FILE _ header); [reflexivity|].
  rewrite (save_data_appends SALES_FILE _ _ _ _ Hfs). reflexivity.
Qed.
End Mutating.

(** C1: executed on a Branch container that holds the one record B1,
    [AddBranchCommand] leaves three records in it: B1, B1 again, and the
    new record B2.  In the same way [AddSaleCommand], executed on a Sale
    container that holds one sale, leaves that sale twice, then the new
    one. *)
Theorem AddBranchCommand_duplicates_records :
  (w' ← execute AddBranchCommand
          {| files := one_branch; stdin := ["B2"; "North"; "Kandy"];
             clock := noon_2024_01_03 |};
   load_data BRANCHES_FILE (files w'.2))
  = Ok [["B1"; "Main"; "Colombo"]; ["B1"; "Main"; "Colombo"]; ["B2"; "North"; "Kandy"]]
  /\ (w' ← execute AddSaleCommand
            {| files := one_sale; stdin := ["B1"; "P2"; "50"];
               clock := noon_2024_01_03 |};
      load_data SALES_FILE (files w'.2))
     = Ok [["B1"; "P1"; "100"; "2024-01-01"]; ["B1"; "P1"; "100"; "2024-01-01"];
           ["B1"; "P2"; "50"; "2024-01-03"]].
Proof.
  split.
  - destruct (AddBranchCommand_execute_existing
                {| files := one_branch; stdin := ["B2"; "North"; "Kandy"];
                   clock := noon_2024_01_03 |}
                ["Branch ID"; "Branch Name"; "Location"] [["B1"; "Main"; "Colombo"]]
                "B2" "North" "Kandy" [] eq_refl eq_refl) as (w' & Hexec & _ & Hload).
    simpl. rewrite Hexec. simpl. exact Hload.
  - destruct (AddSaleCommand_execute_existing
                {| files := one_sale; stdin := ["B1"; "P2"; "50"];
                   clock := noon_2024_01_03 |}
                ["Branch ID"; "Product ID"; "Amount Sold"; "Date"]
                [["B1"; "P1"; "100"; "2024-01-01"]]
                "B1" "P2" "50" [] eq_refl eq_refl) as (w' & Hexec & Hload).
    simpl. rewrite Hexec. simpl. exact Hload.
Qed.

(** * Aggregators *)

Section Comprehension.
Variables (cond : row -> result bool) (expr : row -> result Z).
Variables (keep : row -> bool) (value : row -> Z).

(** Where the condition evaluates on every row and the expression on
    every row kept, the comprehension is [map] after [filter]. *)
Lemma comprehension_filter_map (rows : file) :
  Forall (fun r => cond r = Ok (keep r) /\ (keep r = true -> expr r = Ok (value r))) rows ->
  comprehension cond expr rows = Ok (map value (List.filter keep rows)).
Proof.
  induction 1 as [|r rows [Hc He] _ IH]; simpl; [reflexivity|].
  rewrite Hc. simpl. destruct (keep r); simpl.
  - rewrite (He eq_refl). simpl. rewrite IH. reflexivity.
  - exact IH.
Qed.
End Comprehension.

Lemma field_is_matches (i : nat) (key : string) (r : row) :
  (i < length r)%nat -> field_is i key r = Ok (field_matches i key r).
Proof.
  intros Hlen. unfold field_is, field_matches, getitem.
  destruct (lookup_lt_is_Some_2 r i Hlen) as [field Hf]. rewrite Hf. reflexivity.
Qed.

Lemma amount_sold_of (r : row) :
  is_ok (amount_sold r) = true -> amount_sold r = Ok (amount_of r).
Proof. unfold amount_of. destruct (amount_sold r); [reflexivity|discriminate]. Qed.

Lemma field_matches_spec (i : nat) (key : string) (r : row) :
  field_matches i key r = true <-> r !! i = Some key.
Proof.
  unfold field_matches. destruct (r !! i) as [field|]; [|by split].
  rewrite String.eqb_eq. split; congruence.
Qed.

Lemma filter_field_matches (i : nat) (key : string) (rows : file) :
  List.filter (field_matches i key) rows = filter (fun r => r !! i = Some key) rows.
Proof.
  induction rows as [|r rows IH]; simpl; [reflexivity|].
  rewrite filter_cons. destruct (field_matches i key r) eqn:Hm.
  - apply field_matches_spec in Hm. rewrite decide_True by done. by rewrite IH.
  - rewrite decide_False; [done|].
    intros Hr. apply field_matches_spec in Hr. congruence.
Qed.

Lemma filtered_amounts (i : nat) (key : string) (sales : file) :
  Forall (fun r => (i < length r)%nat) sales ->
  Forall (fun r => r !! i = Some key -> is_ok (amount_sold r) = true) sales ->
  comprehension (field_is i key) amount_sold sales = Ok (amounts_where i key sales).
Proof.
  intros Hlen Hamt. unfold amounts_where. rewrite <- filter_field_matches.
  apply comprehension_filter_map.
  rewrite Forall_forall in *. intros r Hr. split.
  - apply field_is_matches, Hlen, Hr.
  - intros Hm. apply amount_sold_of, Hamt; [assumption|].
    by apply field_matches_spec.
Qed.

Lemma monthly_sales_analysis_result (branch_id : string) (fs : filesystem) (sales : file) :
  load_data SALES_FILE fs = Ok sales ->
  Forall (fun r => (0 < length r)%nat) sales ->
  Forall (fun r => r !! 0%nat = Some branch_id -> is_ok (amount_sold r) = true) sales ->
  monthly_sales_analysis branch_id fs
  = Ok (match amounts_where 0 branch_id sales with
        | [] => NoData
        | _ :: _ => Histogram (amounts_where 0 branch_id sales)
        end).
Proof.
  intros Hload Hlen Hamt. unfold monthly_sales_analysis.
  rewrite Hload. simpl. rewrite (filtered_amounts 0 branch_id sales Hlen Hamt). simpl.
  destruct (amounts_where 0 branch_id sales); reflexivity.
Qed.

(** ** Statistics *)

Lemma fold_left_max (l : list Z) :
  forall x, In (fold_left Z.max l x) (x :: l)
            /\ x <= fold_left Z.max l x
            /\ Forall (fun y => y <= fold_left Z.max l x) l.
Proof.
  induction l as [|y l IH]; intros x; simpl.
  - split; [by left|]. split; [lia|constructor].
  - destruct (IH (Z.max x y)) as (Hin & Hle & Hall).
    split; [|split].
    + destruct Hin as [Heq|Hin]; [|by right; right].
      rewrite <- Heq. destruct (Z.max_spec x y) as [[_ ->]|[_ ->]]; auto.
    + lia.
    + constructor; [lia|exact Hall].
Qed.

Lemma fold_left_min (l : list Z) :
  forall x, In (fold_left Z.min l x) (x :: l)
            /\ fold_left Z.min l x <= x
            /\ Forall (fun y => fold_left Z.min l x <= y) l.
Proof.
  induction l as [|y l IH]; intros x; simpl.
  - split; [by left|]. split; [lia|constructor].
  - destruct (IH (Z.min x y)) as (Hin & Hle & Hall).
    split; [|split].
    + destruct Hin as [Heq|Hin]; [|by right; right].
      rewrite <- Heq. destruct (Z.min_spec x y) as [[_ ->]|[_ ->]]; auto.
    + lia.
    + constructor; [lia|exact Hall].
Qed.

Lemma np_max_greatest (l : list Z) :
  l <> [] -> exists m, np_max l = Ok m /\ In m l /\ Forall (fun y => y <= m) l.
Proof.
  destruct l as [|x l]; [done|]. intros _. simpl.
  destruct (fold_left_max l x) as (Hin & Hle & Hall).
  eexists; split; [reflexivity|]. split; [exact Hin|]. by constructor.
Qed.

Lemma np_min_least (l : list Z) :
  l <> [] -> exists m, np_min l = Ok m /\ In m l /\ Forall (fun y => m <= y) l.
Proof.
  destruct l as [|x l]; [done|]. intros _. simpl.
  destruct (fold_left_min l x) as (Hin & Hle & Hall).
  eexists; split; [reflexivity|]. split; [exact Hin|]. by constructor.
Qed.

Lemma np_mean_exact (l : list Z) :
  l <> [] ->
  exists q, np_mean l = Fin q
            /\ (q * inject_Z (Z.of_nat (length l)) == inject_Z (py_sum l))%Q.
Proof.
  destruct l as [|x l]; [done|]. intros _. simpl np_mean.
  eexists; split; [reflexivity|].
  apply Qdiv_mult_l.
  unfold Qeq. simpl. lia.
Qed.

Lemma insert_sorted_perm (x : Z) (l : list Z) : Permutation (x :: l) (insert_sorted x l).
Proof.
  induction l as [|y l IH]; simpl; [reflexivity|].
  destruct (x <=? y); [reflexivity|].
  rewrite perm_swap. by constructor.
Qed.

Lemma insert_sorted_sorted (x : Z) (l : list Z) :
  Sorted Z.le l -> Sorted Z.le (insert_sorted x l).
Proof.
  induction 1 as [|y l Hs IH Hhd]; simpl.
  - repeat constructor.
  - destruct (Z.leb_spec x y) as [Hle|Hgt].
    + constructor; [by constructor|by constructor].
    + constructor; [exact IH|].
      destruct l as [|z l]; simpl.
      * constructor; lia.
      * destruct (Z.leb_spec x z); constructor; [lia|].
        by inversion Hhd.
  Qed.

Lemma sort_perm (l : list Z) : Permutation l (sort l).
Proof.
  induction l as [|x l IH]; simpl; [reflexivity|].
  rewrite <- insert_sorted_perm. by constructor.
Qed.

Lemma sort_sorted (l : list Z) : Sorted Z.le (sort l).
Proof.
  induction l as [|x l IH]; simpl; [constructor|]. by apply insert_sorted_sorted.
Qed.

(** The median is read off a sorted rearrangement of the values. *)
Lemma np_median_middle (l : list Z) :
  l <> [] ->
  exists sorted q,
    np_median l = Fin q
    /\ Permutation l sorted /\ Sorted Z.le sorted
    /\ (Nat.even (length l) = false ->
        q = inject_Z (nth (length l / 2) sorted 0))
    /\ (Nat.even (length l) = true ->
        q = Qdiv (inject_Z (nth (length l / 2 - 1) sorted 0 + nth (length l / 2) sorted 0))
              (inject_Z 2)).
Proof.
  intros Hne. exists (sort l).
  unfold np_median. destruct l as [|x l]; [done|].
  set (n := length (x :: l)). change (length (x :: l)) with n.
  destruct (Nat.even n) eqn:He; eexists; (split; [reflexivity|]);
    (split; [apply sort_perm|]); (split; [apply sort_sorted|]);
    split; intros; congruence.
Qed.

(** [price_analysis] after its comprehension. *)
Lemma price_analysis_filtered (product_id : string) (fs : filesystem) (sales : file) :
  load_data SALES_FILE fs = Ok sales ->
  Forall (fun r => (1 < length r)%nat) sales ->
  Forall (fun r => r !! 1%nat = Some product_id -> is_ok (amount_sold r) = true) sales ->
  price_analysis product_id fs
  = match amounts_where 1 product_id sales with
    | [] => Ok NoData
    | _ :: _ =>
        max_price ← np_max (amounts_where 1 product_id sales);
        min_price ← np_min (amounts_where 1 product_id sales);
        Ok (PriceStatistics (np_mean (amounts_where 1 product_id sales))
              max_price min_price (np_median (amounts_where 1 product_id sales)))
    end.
Proof.
  intros Hload Hlen Hamt. unfold price_analysis. rewrite Hload. simpl.
  rewrite (filtered_amounts 1 product_id sales Hlen Hamt). simpl.
  by destruct (amounts_where 1 product_id sales).
Qed.

Lemma price_analysis_no_data_iff (product_id : string) (fs : filesystem) (sales : file) :
  load_data SALES_FILE fs = Ok sales ->
  Forall (fun r => (1 < length r)%nat) sales ->
  Forall (fun r => r !! 1%nat = Some product_id -> is_ok (amount_sold r) = true) sales ->
  exists r : report,
    price_analysis product_id fs = Ok r
    /\ (r = NoData <-> filter (fun s => s !! 1%nat = Some product_id) sales = []).
Proof.
  intros Hload Hlen Hamt.
  rewrite (price_analysis_filtered product_id fs sales Hload Hlen Hamt).
  unfold amounts_where.
  destruct (filter (fun s => s !! 1%nat = Some product_id) sales) as [|s l]; simpl.
  - by exists NoData.
  - eexists. split; [reflexivity|]. split; done.
Qed.





(** ** All branches *)

Lemma filter_absent (k : string) (l : list string) :
  k ∉ l -> filter (fun k' => k' <> k) l = l.
Proof.
  induction l as [|k' l IH]; intros Hk; [reflexivity|].
  apply not_elem_of_cons in Hk as [Hne Hk].
  rewrite filter_cons, decide_True by congruence. f_equal. by apply IH.
Qed.

Lemma first_occurrences_NoDup_id (l : list string) : NoDup l -> first_occurrences l = l.
Proof.
  induction 1 as [|k l Hk _ IH]; simpl; [reflexivity|].
  rewrite IH. f_equal. by apply filter_absent.
Qed.

Lemma first_occurrences_elem_of (l : list string) (k : string) :
  k ∈ first_occurrences l <-> k ∈ l.
Proof.
  induction l as [|k' l IH]; simpl; [reflexivity|].
  rewrite !elem_of_cons, list_elem_of_filter, IH.
  destruct (decide (k = k')) as [->|Hne]; intuition congruence.
Qed.

Lemma first_occurrences_NoDup (l : list string) : NoDup (first_occurrences l).
Proof.
  induction l as [|k l IH]; simpl; [constructor|].
  apply NoDup_cons. split.
  - rewrite list_elem_of_filter. intros [Hne _]. by apply Hne.
  - by apply NoDup_filter.
Qed.

Lemma dict_set_zeros (keys : list string) (k : string) :
  dict_set (zeros keys) k 0
  = zeros (if decide (k ∈ keys) then keys else keys ++ [k]).
Proof.
  induction keys as [|k' keys IH]; simpl.
  - reflexivity.
  - destruct (String.eqb_spec k' k) as [->|Hne].
    + rewrite decide_True; [reflexivity|]. by left.
    + rewrite IH. destruct (decide (k ∈ keys)) as [Hin|Hnin].
      * rewrite decide_True; [reflexivity|]. by right.
      * rewrite decide_False; [reflexivity|].
        rewrite elem_of_cons. intros [->|Hin]; [by apply Hne|by apply Hnin].
Qed.

Lemma getitem_branch_id (branch : row) :
  (0 < length branch)%nat -> getitem branch 0 = Ok (branch_id_of branch).
Proof.
  destruct branch as [|k branch]; simpl; [lia|]. reflexivity.
Qed.

(** The dictionary comprehension gives every branch_id one entry at zero,
    in the order in which the identifiers first occur. *)
Lemma init_monthly_sales_zeros (branches : file) :
  Forall (fun b => (0 < length b)%nat) branches ->
  forall keys : list string,
    init_monthly_sales (zeros keys) branches
    = Ok (zeros (keys ++ filter (fun k => k ∉ keys)
                          (first_occurrences (map branch_id_of branches)))).
Proof.
  induction 1 as [|b branches Hb _ IH]; intros keys; simpl.
  - by rewrite app_nil_r.
  - rewrite (getitem_branch_id b Hb). simpl.
    rewrite dict_set_zeros, IH. do 2 f_equal.
    set (k := branch_id_of b).
    set (rest := first_occurrences (map branch_id_of branches)).
    rewrite filter_cons, list_filter_filter.
    destruct (decide (k ∈ keys)) as [Hin|Hnin].
    + rewrite decide_False by (intros Hnin; by apply Hnin). f_equal.
      apply list_filter_iff. intros k'. split; [|tauto].
      intros Hk'. split; [exact Hk'|]. intros ->. by apply Hk'.
    + rewrite decide_True by done. rewrite <- app_assoc. simpl. do 2 f_equal.
      apply list_filter_iff. intros k'.
      rewrite not_elem_of_app, list_elem_of_singleton. tauto.
Qed.

Lemma init_monthly_sales_keys (branches : file) :
  Forall (fun b => (0 < length b)%nat) branches ->
  init_monthly_sales [] branches
  = Ok (zeros (first_occurrences (map branch_id_of branches))).
Proof.
  intros Hb.
  change (init_monthly_sales [] branches)
    with (init_monthly_sales (zeros []) branches).
  rewrite (init_monthly_sales_zeros branches Hb []). simpl.
  do 2 f_equal.
  induction (first_occurrences (map branch_id_of branches)) as [|k l IH];
    [reflexivity|].
  rewrite filter_cons, decide_True by apply not_elem_of_nil. by rewrite IH.
Qed.

Lemma dict_get_present (d : dict) (k : string) :
  k ∈ map fst d -> exists v, dict_get d k = Ok v.
Proof.
  induction d as [|[k' v'] d IH]; simpl; intros Hk.
  - by apply elem_of_nil in Hk.
  - destruct (String.eqb_spec k' k) as [->|Hne]; [by eexists|].
    apply elem_of_cons in Hk as [->|Hk]; [done|]. by apply IH.
Qed.

Lemma dict_get_absent (d : dict) (k : string) :
  k ∉ map fst d -> dict_get d k = Raise KeyError.
Proof.
  induction d as [|[k' v'] d IH]; simpl; intros Hk; [reflexivity|].
  apply not_elem_of_cons in Hk as [Hne Hk].
  destruct (String.eqb_spec k' k) as [->|_]; [done|]. by apply IH.
Qed.

Lemma dict_set_keys (d : dict) (k : string) (v : Z) :
  k ∈ map fst d -> map fst (dict_set d k v) = map fst d.
Proof.
  induction d as [|[k' v'] d IH]; simpl; intros Hk.
  - by apply elem_of_nil in Hk.
  - destruct (String.eqb_spec k' k) as [->|Hne]; [reflexivity|]. simpl.
    apply elem_of_cons in Hk as [->|Hk]; [done|]. by rewrite IH.
Qed.

Section Accumulate.
Variables (k : string) (a : Z) (later : string -> Z).

(** Adding [a] under the key [k], then [later] under every key, is adding
    both at once. *)
Lemma dict_set_add (d : dict) (current : Z) :
  NoDup (map fst d) ->
  dict_get d k = Ok current ->
  map (fun e => (e.1, e.2 + later e.1)) (dict_set d k (current + a))
  = map (fun e => (e.1, e.2 + (if decide (e.1 = k) then a + later e.1 else later e.1))) d.
Proof.
  induction d as [|[k' v'] d IH]; simpl; intros Hnd Hget; [discriminate|].
  apply NoDup_cons in Hnd as [Hk' Hnd].
  destruct (String.eqb_spec k' k) as [->|Hne]; simpl.
  - injection Hget as ->. rewrite decide_True by done. f_equal.
    + f_equal. lia.
    + apply map_ext_in. intros [k'' v''] Hin. simpl.
      rewrite decide_False; [reflexivity|]. intros ->.
      apply Hk'. apply list_elem_of_In. apply (in_map fst) in Hin. exact Hin.
  - rewrite decide_False by done. f_equal. by apply IH.
Qed.
End Accumulate.

Lemma amounts_where_cons (k k' : string) (sale : row) (sales : file) :
  sale !! 0%nat = Some k ->
  amounts_where 0 k' (sale :: sales)
  = if decide (k' = k) then amount_of sale :: amounts_where 0 k' sales
    else amounts_where 0 k' sales.
Proof.
  intros Hk. unfold amounts_where. rewrite filter_cons, Hk.
  destruct (decide (k' = k)) as [->|Hne].
  - by rewrite decide_True.
  - rewrite decide_False; [done|]. congruence.
Qed.

Lemma accumulate_totals (sales : file) :
  forall d : dict,
    NoDup (map fst d) ->
    Forall (sale_known (map fst d)) sales ->
    accumulate d sales = Ok (with_totals d sales).
Proof.
  induction sales as [|sale sales IH]; intros d Hnd Hall; simpl.
  - f_equal. unfold with_totals. rewrite <- (map_id d) at 1.
    apply map_ext. intros [k v]. simpl. f_equal. lia.
  - apply Forall_cons in Hall as [(k & Hk & Hin & Hamt) Hall].
    destruct (dict_get_present d k Hin) as [current Hget].
    unfold getitem. rewrite Hk. simpl. rewrite Hget. simpl.
    rewrite (amount_sold_of sale Hamt). simpl.
    rewrite IH.
    + f_equal. unfold with_totals.
      rewrite (dict_set_add k (amount_of sale)
                 (fun k' => py_sum (amounts_where 0 k' sales)) d current Hnd Hget).
      apply map_ext. intros [k' v']. simpl.
      rewrite (amounts_where_cons k k' sale sales Hk).
      by destruct (decide (k' = k)).
    + by rewrite dict_set_keys.
    + by rewrite dict_set_keys.
Qed.

Lemma accumulate_app (before after : file) :
  forall d : dict,
    accumulate d (before ++ after) = (d' ← accumulate d before; accumulate d' after).
Proof.
  induction before as [|sale before IH]; intros d; simpl; [reflexivity|].
  destruct (getitem sale 0) as [k|]; simpl; [|reflexivity].
  destruct (dict_get d k) as [current|]; simpl; [|reflexivity].
  destruct (amount_sold sale) as [amount|]; simpl; [|reflexivity].
  apply IH.
Qed.

(** The first sale of an unknown branch stops the loop with [KeyError]. *)
Lemma accumulate_unknown_branch (d : dict) (before after : file) (sale : row)
    (k : string) :
  NoDup (map fst d) ->
  Forall (sale_known (map fst d)) before ->
  sale !! 0%nat = Some k ->
  k ∉ map fst d ->
  accumulate d (before ++ sale :: after) = Raise KeyError.
Proof.
  intros Hnd Hbefore Hk Hnin.
  rewrite accumulate_app, (accumulate_totals before d Hnd Hbefore). simpl.
  unfold getitem. rewrite Hk. simpl.
  rewrite dict_get_absent; [reflexivity|].
  unfold with_totals. rewrite map_map. simpl. exact Hnin.
Qed.

Lemma sale_known_keys (keys keys' : list string) (sales : file) :
  (forall k, k ∈ keys -> k ∈ keys') ->
  Forall (sale_known keys) sales -> Forall (sale_known keys') sales.
Proof.
  intros Hsub Hall. eapply Forall_impl; [exact Hall|].
  intros sale (k & Hk & Hin & Hamt). exists k. auto.
Qed.

Lemma map_fst_zeros (keys : list string) : map fst (zeros keys) = keys.
Proof. unfold zeros. rewrite map_map. simpl. apply map_id. Qed.

Section AllBranches.
Variables (fs : filesystem) (sales branches : file).
Hypothesis Hsales : load_data SALES_FILE fs = Ok sales.
Hypothesis Hbranches : load_data BRANCHES_FILE fs = Ok branches.
Hypothesis Hrows : Forall (fun b => (0 < length b)%nat) branches.

Let ids := map branch_id_of branches.
Let keys := first_occurrences ids.

Lemma sale_known_first_occurrences (rows : file) :
  Forall (sale_known ids) rows -> Forall (sale_known (map fst (zeros keys))) rows.
Proof.
  apply sale_known_keys. intros k Hk.
  rewrite map_fst_zeros. by apply first_occurrences_elem_of.
Qed.

Lemma zeros_keys_NoDup : NoDup (map fst (zeros keys)).
Proof. rewrite map_fst_zeros. apply first_occurrences_NoDup. Qed.

(** With a branch in the container and every sale known, the report is
    the branches with their totals. *)
Lemma all_branches_report :
  branches <> [] ->
  Forall (sale_known ids) sales ->
  all_branches_monthly_sales_analysis fs
  = Ok (BarChart keys (map (fun k => py_sum (amounts_where 0 k sales)) keys)).
Proof.
  intros Hne Hall. unfold all_branches_monthly_sales_analysis.
  rewrite Hsales, Hbranches. simpl.
  rewrite (init_monthly_sales_keys branches Hrows). simpl.
  change (first_occurrences (map branch_id_of branches)) with keys.
  rewrite (accumulate_totals sales _ zeros_keys_NoDup
             (sale_known_first_occurrences _ Hall)). simpl.
  assert (Hkeys : keys <> []).
  { subst keys ids. destruct branches as [|b bs]; [done|]. discriminate. }
  unfold with_totals, zeros. rewrite map_map. simpl.
  destruct keys as [|k keys']; [done|]. simpl.
  rewrite !map_map. simpl. rewrite map_id. reflexivity.
Qed.

Lemma all_branches_unknown_branch (before after : file) (sale : row) (k : string) :
  sales = before ++ sale :: after ->
  Forall (sale_known ids) before ->
  sale !! 0%nat = Some k ->
  k ∉ ids ->
  all_branches_monthly_sales_analysis fs = Raise KeyError.
Proof.
  intros Heq Hbefore Hk Hnin. unfold all_branches_monthly_sales_analysis.
  rewrite Hsales, Hbranches. simpl.
  rewrite (init_monthly_sales_keys branches Hrows). simpl. rewrite Heq.
  change (first_occurrences (map branch_id_of branches)) with keys.
  rewrite (accumulate_unknown_branch _ before after sale k zeros_keys_NoDup
             (sale_known_first_occurrences _ Hbefore) Hk);
    [reflexivity|].
  rewrite map_fst_zeros. intros Hin. apply Hnin.
  by apply first_occurrences_elem_of.
Qed.
End AllBranches.



(** C9: when the Branch container holds no record,
    [all_branches_monthly_sales_analysis] raises, whatever the Sale
    container holds; with no sale either, the accumulator is empty and
    unpacking its items raises [ValueError]. *)
Theorem all_branches_without_branch (fs : filesystem) :
  load_data BRANCHES_FILE fs = Ok [] ->
  raises (all_branches_monthly_sales_analysis fs)
  /\ (load_data SALES_FILE fs = Ok [] ->
      all_branches_monthly_sales_analysis fs = Raise ValueError).
Proof.
  intros Hbranches. unfold all_branches_monthly_sales_analysis. split.
  - destruct (load_data SALES_FILE fs) as [sales|e]; simpl; [|by eexists].
    rewrite Hbranches. simpl.
    destruct sales as [|sale sales]; simpl; [by eexists|].
    destruct (getitem sale 0) as [k|e]; simpl; by eexists.
  - intros ->. simpl. rewrite Hbranches. reflexivity.
Qed.

Lemma all_branches_without_branch_witness :
  all_branches_monthly_sales_analysis
    {[ BRANCHES_FILE := [["Branch ID"; "Branch Name"; "Location"]];
       SALES_FILE := [["Branch ID"; "Product ID"; "Amount Sold"; "Date"]] ]}
  = Raise ValueError.
Proof.
  apply all_branches_without_branch; reflexivity.
Defined.

(** ** The week of [weekly_sales_analysis] *)

Lemma monday_of_range (t : datetime) :
  1 <= ordinal t -> 1 <= monday_of t <= ordinal t.
Proof.
  intros Hord. unfold monday_of, weekday.
  pose proof (Z.mod_pos_bound (ordinal t + 6) 7 ltac:(lia)) as Hmod.
  pose proof (Z.div_mod (ordinal t + 6) 7 ltac:(lia)) as Hdiv.
  assert (1 <= (ordinal t + 6) / 7) by (apply Z.div_le_lower_bound; lia).
  lia.
Qed.

Lemma monday_of_is_monday (t : datetime) : weekday (midnight (monday_of t)) = 0.
Proof.
  unfold monday_of, weekday, midnight. simpl.
  pose proof (Z.div_mod (ordinal t + 6) 7 ltac:(lia)) as Hdiv.
  replace (ordinal t - (ordinal t + 6) mod 7 + 6) with ((ordinal t + 6) / 7 * 7) by lia.
  apply Z.mod_mul. lia.
Qed.

(** The two bounds the comprehension compares with: both carry the time of
    day of [today]. *)
Lemma week_bounds (today : datetime) :
  clock_in_range today ->
  add_days today (- weekday today)
  = Ok {| ordinal := monday_of today; micros := micros today |}
  /\ add_days {| ordinal := monday_of today; micros := micros today |} 6
     = Ok {| ordinal := monday_of today + 6; micros := micros today |}.
Proof.
  intros (Hord & Hmax & _). pose proof (monday_of_range today Hord) as Hmon.
  unfold add_days, monday_of in *. simpl.
  replace (ordinal today + - weekday today) with (ordinal today - weekday today) by lia.
  unfold MAXORDINAL in *. split.
  - destruct (Z.leb_spec 1 (ordinal today - weekday today)); [|lia].
    destruct (Z.leb_spec (ordinal today - weekday today) 3652059); [|lia].
    reflexivity.
  - destruct (Z.leb_spec 1 (ordinal today - weekday today + 6)); [|lia].
    destruct (Z.leb_spec (ordinal today - weekday today + 6) 3652059); [|lia].
    reflexivity.
Qed.

Section Week.
Variables (today : datetime) (sale : row) (field : string) (amount : Z).
Hypothesis Hclock : clock_in_range today.
Hypothesis Hfield : sale !! 3%nat = Some field.
Hypothesis Hamount : amount_sold sale = Ok amount.

Lemma weekly_sales_one (date : datetime) :
  strptime field = Ok date ->
  weekly_sales today [sale]
  = Ok (if datetime_le {| ordinal := monday_of today; micros := micros today |} date
           && datetime_le date {| ordinal := monday_of today + 6; micros := micros today |}
        then [amount] else []).
Proof.
  intros Hdate. unfold weekly_sales.
  destruct (week_bounds today Hclock) as [-> Hend]. simpl. rewrite Hend. simpl.
  unfold in_week, getitem. rewrite Hfield. simpl. rewrite Hdate. simpl.
  destruct (_ && _); simpl; [|reflexivity]. rewrite Hamount. reflexivity.
Qed.

(** A sale dated the Monday of the current week is kept when the report
    runs at midnight sharp, and at no other time of day. *)
Lemma monday_sale_kept_at_midnight_only :
  strptime field = Ok (midnight (monday_of today)) ->
  weekly_sales today [sale] = Ok (if micros today =? 0 then [amount] else []).
Proof.
  intros Hdate. rewrite (weekly_sales_one _ Hdate).
  destruct Hclock as (_ & _ & Hmicros).
  unfold datetime_le, midnight. simpl.
  rewrite Z.ltb_irrefl, Z.eqb_refl. simpl.
  destruct (Z.eqb_spec (micros today) 0) as [->|Hne].
  - simpl. destruct (Z.ltb_spec (monday_of today) (monday_of today + 6)); [|lia].
    reflexivity.
  - destruct (Z.leb_spec (micros today) 0); [lia|]. reflexivity.
Qed.

(** A sale dated the following Monday is never kept. *)
Lemma next_monday_sale_dropped :
  strptime field = Ok (midnight (monday_of today + 7)) ->
  weekly_sales today [sale] = Ok [].
Proof.
  intros Hdate. rewrite (weekly_sales_one _ Hdate).
  unfold datetime_le, midnight. simpl.
  destruct (Z.ltb_spec (monday_of today + 7) (monday_of today + 6)); [lia|].
  destruct (Z.eqb_spec (monday_of today + 7) (monday_of today + 6)); [lia|].
  simpl. rewrite andb_false_r. reflexivity.
Qed.
End Week.

(** C2: run at noon on Wednesday 2024-01-03, [weekly_sales_analysis] leaves
    out a sale dated Monday 2024-01-01, the Monday of that week: the
    filtered set is empty and the total is 0. *)
Theorem weekly_sales_analysis_drops_monday :
  weekday noon_2024_01_03 = 2
  /\ strptime "2024-01-01" = Ok (midnight (monday_of noon_2024_01_03))
  /\ weekly_sales noon_2024_01_03 [["B1"; "P1"; "100"; "2024-01-01"]] = Ok []
  /\ weekly_sales_analysis noon_2024_01_03
       {[ SALES_FILE := [["Branch ID"; "Product ID"; "Amount Sold"; "Date"];
                         ["B1"; "P1"; "100"; "2024-01-01"]] ]}
     = Ok (WeeklySales 0 (Fin 0)).
Proof.
  split; [reflexivity|]. split; [reflexivity|]. split.
  - rewrite (monday_sale_kept_at_midnight_only noon_2024_01_03
               ["B1"; "P1"; "100"; "2024-01-01"] "2024-01-01" 100).
    + reflexivity.
    + unfold clock_in_range. vm_compute. repeat split; discriminate.
    + reflexivity.
    + reflexivity.
    + reflexivity.
  - vm_compute. reflexivity.
Qed.

(** * Faults of the reporting commands *)

Lemma well_formed_sale_length (sale : row) :
  well_formed_sale sale = true -> (3 < length sale)%nat.
Proof.
  unfold well_formed_sale, getitem. intros [_ H]%andb_true_iff.
  apply lookup_lt_is_Some. destruct (sale !! 3%nat); [eauto|discriminate].
Qed.

Lemma well_formed_sale_amount (sale : row) :
  well_formed_sale sale = true -> is_ok (amount_sold sale) = true.
Proof. unfold well_formed_sale. by intros [H _]%andb_true_iff. Qed.

Lemma in_week_well_formed (start_of_week end_of_week : datetime) (sale : row) :
  well_formed_sale sale = true ->
  exists kept, in_week start_of_week end_of_week sale = Ok kept.
Proof.
  unfold well_formed_sale, in_week. intros [_ H]%andb_true_iff.
  destruct (getitem sale 3) as [field|]; simpl in *; [|discriminate].
  destruct (strptime field) as [date|]; simpl in *; [|discriminate].
  by eexists.
Qed.

Lemma weekly_sales_well_formed (today : datetime) (sales : file) :
  clock_in_range today ->
  Forall (fun s => well_formed_sale s = true) sales ->
  succeeds (weekly_sales today sales).
Proof.
  intros Hclock Hall. unfold weekly_sales.
  destruct (week_bounds today Hclock) as [-> Hend]. simpl. rewrite Hend. simpl.
  set (start_of_week := {| ordinal := monday_of today; micros := micros today |}).
  set (end_of_week := {| ordinal := monday_of today + 6; micros := micros today |}).
  eexists.
  apply (comprehension_filter_map _ _
           (fun s => match in_week start_of_week end_of_week s with
                     | Ok kept => kept
                     | Raise _ => false
                     end) amount_of).
  eapply Forall_impl; [exact Hall|]. intros sale Hwf. split.
  - destruct (in_week_well_formed start_of_week end_of_week sale Hwf) as [kept ->].
    reflexivity.
  - intros _. by apply amount_sold_of, well_formed_sale_amount.
Qed.

Lemma filter_all (rows : file) : List.filter (fun _ => true) rows = rows.
Proof. induction rows as [|r rows IH]; simpl; [reflexivity|]. by rewrite IH. Qed.

Lemma total_sales_well_formed (fs : filesystem) (sales : file) :
  load_data SALES_FILE fs = Ok sales ->
  Forall (fun s => is_ok (amount_sold s) = true) sales ->
  total_sales_amount_analysis fs = Ok (TotalSales (py_sum (map amount_of sales))).
Proof.
  intros Hload Hall. unfold total_sales_amount_analysis. rewrite Hload. simpl.
  rewrite (comprehension_filter_map _ _ (fun _ => true) amount_of).
  - by rewrite filter_all.
  - eapply Forall_impl; [exact Hall|]. intros sale Hamt. split; [reflexivity|].
    intros _. by apply amount_sold_of.
Qed.




(** * Further properties of the record store *)

Lemma rev_app_append (a b c : string) :
  String.rev_app (String.append a b) c = String.rev_app b (String.rev_app a c).
Proof.
  revert c. induction a as [|x a IH]; intros c; simpl; [reflexivity|]. apply IH.
Qed.

Lemma rev_app_tail (a b c : string) :
  String.append (String.rev_app a b) c = String.rev_app a (String.append b c).
Proof.
  revert b. induction a as [|x a IH]; intros b; simpl; [reflexivity|]. apply IH.
Qed.

Lemma rev_app_rev_app (a b c : string) :
  String.rev_app (String.rev_app a b) c = String.rev_app b (String.append a c).
Proof.
  revert b c. induction a as [|x a IH]; intros b c; simpl; [reflexivity|].
  rewrite IH. reflexivity.
Qed.

Lemma append_cons (x : ascii) (s t : string) :
  String.append (String x s) t = String x (String.append s t).
Proof. reflexivity. Qed.

Lemma append_empty_r (s : string) : String.append s "" = s.
Proof.
  induction s as [|x s IH]; [reflexivity|]. by rewrite append_cons, IH.
Qed.

Lemma rev_append (a b : string) :
  String.rev (String.append a b) = String.append (String.rev b) (String.rev a).
Proof.
  unfold String.rev. rewrite rev_app_append, rev_app_tail. reflexivity.
Qed.

Lemma rev_rev (s : string) : String.rev (String.rev s) = s.
Proof.
  unfold String.rev. rewrite rev_app_rev_app. simpl. apply append_empty_r.
Qed.

Lemma prefix_append (a b : string) : String.prefix a (String.append a b) = true.
Proof.
  induction a as [|x a IH]; [by destruct b|].
  rewrite append_cons. simpl. destruct (ascii_dec x x); [exact IH|done].
Qed.

Lemma prefix_split (a s : string) :
  String.prefix a s = true -> exists b, s = String.append a b.
Proof.
  revert s. induction a as [|x a IH]; intros s H; [by exists s|].
  destruct s as [|y s]; simpl in H; [discriminate|].
  destruct (ascii_dec x y) as [->|]; [|discriminate].
  destruct (IH s H) as [b ->]. by exists b.
Qed.

(** [endswith] holds of the strings that are a prefix followed by the
    suffix, and of no other. *)
Lemma endswith_spec (s suffix : string) :
  endswith s suffix = true <-> exists before, s = String.append before suffix.
Proof.
  unfold endswith. split.
  - intros [b Hb]%prefix_split. exists (String.rev b).
    rewrite <- (rev_rev s), Hb, rev_append, rev_rev. reflexivity.
  - intros [before ->]. rewrite rev_append. apply prefix_append.
Qed.

(** X1: the loader factory goes by the end of the name.  A name resolves
    to a loader exactly when it is some text followed by one of the four
    file names, so a directory or any other text before the file name is
    accepted; for every other name [load_data] raises [ValueError],
    whether the file exists or not. *)
Theorem create_loader_by_suffix (name : string) :
  (known_kind name <->
   exists before base,
     base ∈ [USER_FILE; BRANCHES_FILE; PRODUCTS_FILE; SALES_FILE]
     /\ name = String.append before base)
  /\ (~ known_kind name -> forall fs, load_data name fs = Raise ValueError).
Proof.
  split.
  - unfold known_kind, DataLoaderFactory_create_loader. split.
    + intros H.
      destruct (endswith name "users.csv") eqn:H1;
        [apply endswith_spec in H1 as [before ->];
         exists before, USER_FILE; split; [set_solver|done]|].
      destruct (endswith name "branches.csv") eqn:H2;
        [apply endswith_spec in H2 as [before ->];
         exists before, BRANCHES_FILE; split; [set_solver|done]|].
      destruct (endswith name "products.csv") eqn:H3;
        [apply endswith_spec in H3 as [before ->];
         exists before, PRODUCTS_FILE; split; [set_solver|done]|].
      destruct (endswith name "sales.csv") eqn:H4;
        [apply endswith_spec in H4 as [before ->];
         exists before, SALES_FILE; split; [set_solver|done]|].
      discriminate.
    + intros (before & base & Hbase & ->).
      assert (Hend : endswith (String.append before base) base = true)
        by (apply endswith_spec; by exists before).
      rewrite !elem_of_cons, elem_of_nil in Hbase.
      destruct Hbase as [->|[->|[->|[->|[]]]]];
        unfold USER_FILE, BRANCHES_FILE, PRODUCTS_FILE, SALES_FILE in *;
        destruct (endswith _ "users.csv") eqn:E1; try reflexivity;
        destruct (endswith _ "branches.csv") eqn:E2; try reflexivity;
        destruct (endswith _ "products.csv") eqn:E3; try reflexivity;
        destruct (endswith _ "sales.csv") eqn:E4; try reflexivity;
        congruence.
  - intros Hunknown fs. unfold load_data, known_kind in *.
    destruct (DataLoaderFactory_create_loader name) as [loader|e] eqn:Hc.
    + by destruct Hunknown.
    + unfold DataLoaderFactory_create_loader in Hc.
      repeat (destruct (endswith name _); [discriminate|]).
      injection Hc as <-. reflexivity.
Qed.

Lemma create_loader_by_suffix_witness :
  load_data "sales.txt" {[ "sales.txt" := [["Branch ID"]] ]} = Raise ValueError.
Proof.
  apply (create_loader_by_suffix "sales.txt"). discriminate.
Defined.



(** X3: [save_data] only adds rows at the end of the named file.  It
    leaves every other file as it was, keeps the rows of an existing file
    in place before the rows it writes, and leaves the file in existence
    even when it writes nothing. *)
Theorem save_data_keeps_rows (name : string) (data : file) (headers : option row)
    (fs : filesystem) :
  (forall other, other <> name ->
     save_data name data headers fs !! other = fs !! other)
  /\ (forall content, fs !! name = Some content ->
        save_data name data headers fs !! name = Some (content ++ data))
  /\ path_exists name (save_data name data headers fs) = true.
Proof.
  split; [|split].
  - intros other Hne. apply save_data_other. congruence.
  - intros content. apply save_data_appends.
  - rewrite (path_exists_present name _ _ (save_data_lookup name data headers fs)).
    reflexivity.
Qed.

Lemma save_data_keeps_rows_witness :
  save_data BRANCHES_FILE [["B2"; "North"; "Kandy"]] None one_branch !! BRANCHES_FILE
  = Some [["Branch ID"; "Branch Name"; "Location"]; ["B1"; "Main"; "Colombo"];
          ["B2"; "North"; "Kandy"]].
Proof.
  destruct (save_data_keeps_rows BRANCHES_FILE [["B2"; "North"; "Kandy"]] None one_branch)
    as (_ & Hrows & _).
  apply (Hrows [["Branch ID"; "Branch Name"; "Location"]; ["B1"; "Main"; "Colombo"]]).
  reflexivity.
Defined.

(** X4: a container created without a header, or with an empty one, never
    gets a header.  Whatever header the later appends are given, the file
    holds the appended rows only, and loading takes the first row ever
    appended for the header: it is missing from the result, and with no row
    appended at all loading raises [StopIteration]. *)
Theorem container_without_header (name : string) (headers headers' : option row)
    (first : file) (later : list file) (fs : filesystem) :
  known_kind name ->
  fs !! name = None ->
  truthy headers = false ->
  let fs' := append_all name headers' later (save_data name first headers fs) in
  fs' !! name = Some (first ++ concat later)
  /\ load_data name fs'
     = match first ++ concat later with
       | [] => Raise StopIteration
       | _ :: rest => Ok rest
       end.
Proof.
  intros Hk Habsent Hfalsy fs'.
  assert (Hcreated : save_data name first headers fs !! name = Some first).
  { rewrite save_data_lookup, (path_exists_absent name fs Habsent), Habsent.
    unfold rows_written, writes_header. rewrite Hfalsy. reflexivity. }
  assert (Hfile : fs' !! name = Some (first ++ concat later))
    by (by apply append_all_existing).
  split; [exact Hfile|].
  rewrite (load_data_known name fs' Hk). unfold CSVLoader_load_data. simpl.
  rewrite Hfile. reflexivity.
Qed.

Lemma container_without_header_witness :
  load_data SALES_FILE
    (append_all SALES_FILE (Some ["Branch ID"; "Product ID"; "Amount Sold"; "Date"])
       [[["B2"; "P1"; "50"; "2024-01-03"]]]
       (save_data SALES_FILE [["B1"; "P1"; "100"; "2024-01-01"]] None ∅))
  = Ok [["B2"; "P1"; "50"; "2024-01-03"]].
Proof.
  apply (container_without_header SALES_FILE None
           (Some ["Branch ID"; "Product ID"; "Amount Sold"; "Date"])
           [["B1"; "P1"; "100"; "2024-01-01"]] [[["B2"; "P1"; "50"; "2024-01-03"]]] ∅);
    reflexivity.
Defined.

(** * Further properties of the commands *)

Lemma input_stdin (w : world) (line : string) (w' : world) :
  input w = Ok (line, w') ->
  stdin w = line :: stdin w' /\ files w' = files w /\ clock w' = clock w.
Proof.
  unfold input. destruct (stdin w) as [|l rest]; [discriminate|].
  intros [= <- <-]. done.
Qed.

(** What the two mutating commands do once their container is loaded. *)
Lemma AddBranchCommand_execute_inv (w w' : world) :
  AddBranchCommand_execute w = Ok w' ->
  exists (branches : file) (a b c : string),
    load_data BRANCHES_FILE (files w) = Ok branches
    /\ stdin w = a :: b :: c :: stdin w'
    /\ clock w' = clock w
    /\ files w' = save_data BRANCHES_FILE (branches ++ [[a; b; c]])
                    (Some ["Branch ID"; "Branch Name"; "Location"]) (files w).
Proof.
  unfold AddBranchCommand_execute.
  destruct (load_data BRANCHES_FILE (files w)) as [branches|]; [|discriminate].
  simpl. unfold input.
  destruct (stdin w) as [|a [|b [|c rest]]]; try discriminate.
  simpl. intros [= <-]. by exists branches, a, b, c.
Qed.

Lemma AddSaleCommand_execute_inv (w w' : world) :
  AddSaleCommand_execute w = Ok w' ->
  exists (sales : file) (a b c : string),
    load_data SALES_FILE (files w) = Ok sales
    /\ stdin w = a :: b :: c :: stdin w'
    /\ clock w' = clock w
    /\ files w' = save_data SALES_FILE (sales ++ [[a; b; c; strftime (clock w)]])
                    (Some ["Branch ID"; "Product ID"; "Amount Sold"; "Date"]) (files w).
Proof.
  unfold AddSaleCommand_execute.
  destruct (load_data SALES_FILE (files w)) as [sales|]; [|discriminate].
  simpl. unfold input.
  destruct (stdin w) as [|a [|b [|c rest]]]; try discriminate.
  simpl. intros [= <-]. by exists sales, a, b, c.
Qed.

Lemma reporting_execute_inv (c : Command) (w : world) (r : option report) (w' : world) :
  is_reporting c = true -> execute c w = Ok (r, w') -> w' = w /\ is_Some r.
Proof.
  intros Hrep. destruct c; try discriminate Hrep; simpl;
    match goal with
    | |- context [mbind _ ?m] => destruct m; simpl; [|discriminate]
    end; intros [= <- <-]; eauto.
Qed.

(** X5: what [execute] leaves alone.  A reporting command hands over a
    report and changes nothing.  A mutating command hands over no report,
    reads exactly three lines of input, leaves the clock and every
    container but its own as they were, and in its own container keeps the
    rows that were there, in place, before the rows it adds. *)
Theorem execute_effects (c : Command) (w w' : world) (r : option report) :
  execute c w = Ok (r, w') ->
  match target c with
  | None => w' = w /\ is_Some r
  | Some name =>
      r = None
      /\ clock w' = clock w
      /\ (exists a b c, stdin w = a :: b :: c :: stdin w')
      /\ (forall other, other <> name -> files w' !! other = files w !! other)
      /\ (forall content, files w !! name = Some content ->
            exists added, files w' !! name = Some (content ++ added))
      /\ is_Some (files w' !! name)
  end.
Proof.
  intros Hexec. destruct c; simpl;
    try (eapply reporting_execute_inv; [|exact Hexec]; reflexivity).
  - simpl in Hexec.
    destruct (AddBranchCommand_execute w) as [w1|] eqn:H1; [|discriminate].
    simpl in Hexec. injection Hexec as <- <-.
    apply AddBranchCommand_execute_inv in H1
      as (branches & a & b & c & _ & Hin & Hclock & ->).
    split; [done|]. split; [done|]. split; [by exists a, b, c|].
    split; [|split].
    + intros other Hne. apply save_data_other. congruence.
    + intros content Hc. eexists. by apply save_data_appends.
    + rewrite save_data_lookup. eauto.
  - simpl in Hexec.
    destruct (AddSaleCommand_execute w) as [w1|] eqn:H1; [|discriminate].
    simpl in Hexec. injection Hexec as <- <-.
    apply AddSaleCommand_execute_inv in H1
      as (sales & a & b & c & _ & Hin & Hclock & ->).
    split; [done|]. split; [done|]. split; [by exists a, b, c|].
    split; [|split].
    + intros other Hne. apply save_data_other. congruence.
    + intros content Hc. eexists. by apply save_data_appends.
    + rewrite save_data_lookup. eauto.
Qed.

Lemma execute_effects_witness :
  let w := {| files := example_files; stdin := []; clock := noon_2024_01_03 |} in
  w = w /\ is_Some (Some (TotalSales 350)).
Proof.
  intros w.
  apply (execute_effects TotalSalesAmountAnalysisCommand w w (Some (TotalSales 350))).
  reflexivity.
Defined.

Lemma load_absent_file (name : string) (fs : filesystem) :
  known_kind name -> fs !! name = None -> load_data name fs = Ok [].
Proof.
  intros Hk H. rewrite (load_data_known name fs Hk).
  unfold CSVLoader_load_data; simpl. by rewrite H.
Qed.

Lemma target_known_kind (c : Command) (name : string) :
  target c = Some name -> known_kind name.
Proof. destruct c; intros [= <-]; reflexivity. Qed.

Section MutatingStep.
Variables (c : Command) (name : string) (w : world).
Variables (x y z : string) (rest : list string).
Hypothesis Htarget : target c = Some name.
Hypothesis Hstdin : stdin w = x :: y :: z :: rest.

Let record : row :=
  match c with
  | AddSaleCommand => [x; y; z; strftime (clock w)]
  | _ => [x; y; z]
  end.

Lemma execute_mutating (loaded : file) :
  load_data name (files w) = Ok loaded ->
  exists (w' : world) (headers : row),
    execute c w = Ok (None, w')
    /\ files w' = save_data name (loaded ++ [record]) (Some headers) (files w)
    /\ headers <> []
    /\ stdin w' = rest /\ clock w' = clock w.
Proof.
  intros Hload. subst record.
  destruct c; try discriminate Htarget; injection Htarget as <-; simpl.
  - unfold AddBranchCommand_execute. rewrite Hload. simpl.
    unfold input. rewrite Hstdin. simpl.
    eexists _, _. split; [reflexivity|]. simpl. done.
  - unfold AddSaleCommand_execute. rewrite Hload. simpl.
    unfold input. rewrite Hstdin. simpl.
    eexists _, _. split; [reflexivity|]. simpl. done.
Qed.

Lemma execute_mutating_existing (header : row) (records : file) :
  files w !! name = Some (header :: records) ->
  exists w' : world,
    execute c w = Ok (None, w')
    /\ files w' !! name = Some (header :: records ++ records ++ [record])
    /\ stdin w' = rest /\ clock w' = clock w.
Proof.
  intros Hfile.
  destruct (execute_mutating records) as (w' & headers & Hexec & Hfiles & _ & Hin & Hclock).
  { apply (load_data_content name _ header); [by apply (target_known_kind c)|exact Hfile]. }
  exists w'. split; [exact Hexec|]. split; [|done].
  rewrite Hfiles, (save_data_appends name _ _ _ _ Hfile). reflexivity.
Qed.

Lemma execute_mutating_absent :
  files w !! name = None ->
  exists (w' : world) (headers : row),
    execute c w = Ok (None, w')
    /\ files w' !! name = Some [headers; record]
    /\ stdin w' = rest /\ clock w' = clock w.
Proof.
  intros Hfile.
  destruct (execute_mutating []) as (w' & headers & Hexec & Hfiles & Hne & Hin & Hclock).
  { apply load_absent_file; [by apply (target_known_kind c)|exact Hfile]. }
  exists w', headers. split; [exact Hexec|]. split; [|done].
  rewrite Hfiles. destruct headers as [|h hs]; [done|].
  by rewrite (save_data_creates name _ h hs _ Hfile).
Qed.
End MutatingStep.

Lemma execute_on_empty_container (c : Command) (name : string) (w : world)
    (x y z : string) (rest : list string) :
  target c = Some name ->
  stdin w = x :: y :: z :: rest ->
  files w !! name = None \/ (exists header, files w !! name = Some [header]) ->
  exists w' : world,
    execute c w = Ok (None, w')
    /\ load_data name (files w') = Ok [new_record c w x y z]
    /\ stdin w' = rest.
Proof.
  intros Htarget Hstdin [Hfile|[header Hfile]].
  - destruct (execute_mutating_absent c name w x y z rest Htarget Hstdin Hfile)
      as (w' & headers & Hexec & Hfile' & Hin & _).
    exists w'. split; [exact Hexec|]. split; [|exact Hin].
    apply (load_data_content name _ headers); [by apply (target_known_kind c)|].
    exact Hfile'.
  - destruct (execute_mutating_existing c name w x y z rest Htarget Hstdin header []
                Hfile) as (w' & Hexec & Hfile' & Hin & _).
    exists w'. split; [exact Hexec|]. split; [|exact Hin].
    apply (load_data_content name _ header); [by apply (target_known_kind c)|].
    exact Hfile'.
Qed.

(** X6: on a container that holds no record yet, because the file is
    missing or holds its header only, a mutating command persists exactly
    the one record built from the three lines it reads (and, for a sale,
    from the date of the clock), and consumes those three lines. *)
Theorem add_to_empty_container (c : Command) (name : string) (w : world)
    (x y z : string) (rest : list string) :
  target c = Some name ->
  stdin w = x :: y :: z :: rest ->
  files w !! name = None \/ (exists header, files w !! name = Some [header]) ->
  exists w' : world,
    execute c w = Ok (None, w')
    /\ load_data name (files w') = Ok [new_record c w x y z]
    /\ stdin w' = rest.
Proof. apply execute_on_empty_container. Qed.

Lemma add_to_empty_container_witness :
  exists w' : world,
    execute AddSaleCommand
      {| files := ∅; stdin := ["B1"; "P1"; "100"]; clock := noon_2024_01_03 |}
    = Ok (None, w')
    /\ load_data SALES_FILE (files w') = Ok [["B1"; "P1"; "100"; "2024-01-03"]]
    /\ stdin w' = [].
Proof.
  apply (add_to_empty_container AddSaleCommand SALES_FILE
           {| files := ∅; stdin := ["B1"; "P1"; "100"]; clock := noon_2024_01_03 |}
           "B1" "P1" "100" []).
  - reflexivity.
  - reflexivity.
  - left. reflexivity.
Defined.

(** X7: every execution of a mutating command on a container that exists
    doubles the number of records and adds one.  After [n] executions in a
    row on a container with [N] records, fed three lines each, the
    container holds [2^n * (N + 1) - 1] records, and the lines not read are
    still on the input. *)
Theorem records_double (n : nat) (c : Command) (name : string) :
  target c = Some name ->
  forall (w : world) (header : row) (records : file),
    files w !! name = Some (header :: records) ->
    (3 * n <= length (stdin w))%nat ->
    exists (w' : world) (records' : file),
      execute_times n c w = Ok w'
      /\ load_data name (files w') = Ok records'
      /\ Z.of_nat (length records') + 1 = 2 ^ Z.of_nat n * (Z.of_nat (length records) + 1)
      /\ stdin w' = drop (3 * n) (stdin w).
Proof.
  intros Htarget. induction n as [|n IH]; intros w header records Hfile Hlen.
  - exists w, records. split; [reflexivity|]. split.
    + apply (load_data_content name _ header); [by apply (target_known_kind c)|done].
    + split; [simpl; lia|reflexivity].
  - destruct (stdin w) as [|x [|y [|z rest]]] eqn:Hstdin; simpl in Hlen; try lia.
    destruct (execute_mutating_existing c name w x y z rest Htarget Hstdin header
                records Hfile) as (w1 & Hexec & Hfile1 & Hin1 & _).
    destruct (IH w1 header _ Hfile1) as (w' & records' & Hrun & Hload & Hcount & Hin).
    { rewrite Hin1. lia. }
    exists w', records'. split; [|split; [exact Hload|split]].
    + simpl. rewrite Hexec. simpl. exact Hrun.
    + rewrite Hcount, !length_app. simpl length.
      rewrite Nat2Z.inj_succ, Z.pow_succ_r by lia. lia.
    + rewrite Hin, Hin1. replace (3 * S n)%nat with (3 + 3 * n)%nat by lia.
      reflexivity.
Qed.

Lemma records_double_witness :
  exists (w' : world) (records' : file),
    execute_times 2 AddBranchCommand
      {| files := one_branch; stdin := ["B2"; "North"; "Kandy"; "B3"; "East"; "Galle"];
         clock := noon_2024_01_03 |}
    = Ok w'
    /\ load_data BRANCHES_FILE (files w') = Ok records'
    /\ Z.of_nat (length records') + 1 = 2 ^ 2 * (1 + 1)
    /\ stdin w' = [].
Proof.
  apply (records_double 2 AddBranchCommand BRANCHES_FILE eq_refl
           {| files := one_branch; stdin := ["B2"; "North"; "Kandy"; "B3"; "East"; "Galle"];
              clock := noon_2024_01_03 |}
           ["Branch ID"; "Branch Name"; "Location"] [["B1"; "Main"; "Colombo"]]).
  - reflexivity.
  - simpl. lia.
Defined.

(** ** The date stamp of a sale *)

Lemma month_day_checked (leapyear : bool) :
  forallb (month_day_ok leapyear)
    (map Z.of_nat (seq 0 (if leapyear then 366 else 365))) = true.
Proof. destruct leapyear; vm_compute; reflexivity. Qed.

Lemma month_day_spec (leapyear : bool) (n : Z) :
  0 <= n < (if leapyear then 366 else 365) ->
  month_day_ok leapyear n = true.
Proof.
  intros Hn. pose proof (month_day_checked leapyear) as Hall.
  rewrite forallb_forall in Hall. apply Hall.
  apply in_map_iff. exists (Z.to_nat n). split; [lia|].
  apply in_seq. destruct leapyear; lia.
Qed.

Lemma two_digits_checked : forallb two_digits_ok (map Z.of_nat (seq 1 31)) = true.
Proof. vm_compute. reflexivity. Qed.

Lemma two_digits_spec (n : Z) :
  1 <= n <= 31 -> parse_day [digit_char (n / 10); digit_char n] = Some (n, []).
Proof.
  intros Hn. pose proof two_digits_checked as Hall.
  rewrite forallb_forall in Hall.
  assert (Hok : two_digits_ok n = true).
  { apply Hall. apply in_map_iff. exists (Z.to_nat n). split; [lia|].
    apply in_seq. lia. }
  unfold two_digits_ok in Hok.
  destruct (parse_day _) as [[d [|c l]]|]; try discriminate.
  apply Z.eqb_eq in Hok. by subst.
Qed.

Lemma digit_val_digit_char (k : Z) : digit_val (digit_char k) = Some (k mod 10).
Proof.
  unfold digit_char.
  pose proof (Z.mod_pos_bound k 10 ltac:(lia)) as Hr.
  assert (Hcases : k mod 10 = 0 \/ k mod 10 = 1 \/ k mod 10 = 2 \/ k mod 10 = 3
                   \/ k mod 10 = 4 \/ k mod 10 = 5 \/ k mod 10 = 6 \/ k mod 10 = 7
                   \/ k mod 10 = 8 \/ k mod 10 = 9) by lia.
  repeat (destruct Hcases as [->|Hcases]; [reflexivity|]).
  rewrite Hcases. reflexivity.
Qed.

Lemma parse_month_two_digits (m : Z) (s : list ascii) :
  1 <= m <= 12 ->
  parse_month (digit_char (m / 10) :: digit_char m :: s) = Some (m, s).
Proof.
  intros Hm.
  assert (Hcases : m = 1 \/ m = 2 \/ m = 3 \/ m = 4 \/ m = 5 \/ m = 6 \/ m = 7
                   \/ m = 8 \/ m = 9 \/ m = 10 \/ m = 11 \/ m = 12) by lia.
  repeat (destruct Hcases as [->|Hcases]; [reflexivity|]).
  rewrite Hcases. reflexivity.
Qed.

Lemma is_leap_cycles (a b c d : Z) :
  0 <= b <= 3 -> 0 <= c <= 24 -> 0 <= d <= 3 ->
  is_leap (400 * a + 100 * b + 4 * c + d + 1)
  = (d =? 3) && (negb (c =? 24) || (b =? 3)).
Proof.
  intros Hb Hc Hd. unfold is_leap.
  set (y := 400 * a + 100 * b + 4 * c + d + 1).
  assert (H4 : y mod 4 = (d + 1) mod 4).
  { unfold y. replace (400 * a + 100 * b + 4 * c + d + 1)
      with (d + 1 + (100 * a + 25 * b + c) * 4) by lia.
    apply Z.mod_add. lia. }
  assert (H100 : y mod 100 = (4 * c + d + 1) mod 100).
  { unfold y. replace (400 * a + 100 * b + 4 * c + d + 1)
      with (4 * c + d + 1 + (4 * a + b) * 100) by lia.
    apply Z.mod_add. lia. }
  assert (H400 : y mod 400 = (100 * b + 4 * c + d + 1) mod 400).
  { unfold y. replace (400 * a + 100 * b + 4 * c + d + 1)
      with (100 * b + 4 * c + d + 1 + a * 400) by lia.
    apply Z.mod_add. lia. }
  rewrite H4, H100, H400.
  destruct (Z.eqb_spec d 3) as [->|Hd3].
  - replace ((3 + 1) mod 4) with 0 by reflexivity. simpl.
    destruct (Z.eqb_spec c 24) as [->|Hc24].
    + replace ((4 * 24 + 3 + 1) mod 100) with 0 by reflexivity. simpl.
      destruct (Z.eqb_spec b 3) as [->|Hb3]; [reflexivity|].
      rewrite Z.mod_small by lia.
      destruct (Z.eqb_spec (100 * b + 4 * 24 + 3 + 1) 0); [lia|reflexivity].
    + rewrite (Z.mod_small (4 * c + 3 + 1)) by lia.
      destruct (Z.eqb_spec (4 * c + 3 + 1) 0); [lia|reflexivity].
  - rewrite (Z.mod_small (d + 1)) by lia.
    destruct (Z.eqb_spec (d + 1) 0); [lia|reflexivity].
Qed.

Lemma days_before_year_cycles (a b c d : Z) :
  0 <= a -> 0 <= b <= 3 -> 0 <= c <= 24 -> 0 <= d <= 3 ->
  days_before_year (400 * a + 100 * b + 4 * c + d + 1)
  = 146097 * a + 36524 * b + 1461 * c + 365 * d.
Proof.
  intros Ha Hb Hc Hd. unfold days_before_year.
  replace (400 * a + 100 * b + 4 * c + d + 1 - 1) with (400 * a + 100 * b + 4 * c + d) by lia.
  set (p := 400 * a + 100 * b + 4 * c + d).
  assert (H4 : p / 4 = 100 * a + 25 * b + c)
    by (symmetry; apply (Z.div_unique p 4 _ d); lia).
  assert (H100 : p / 100 = 4 * a + b)
    by (symmetry; apply (Z.div_unique p 100 _ (4 * c + d)); lia).
  assert (H400 : p / 400 = a)
    by (symmetry; apply (Z.div_unique p 400 _ (100 * b + 4 * c + d)); lia).
  rewrite H4, H100, H400. lia.
Qed.

Lemma ord2ymd_month_day (n0 : Z) :
  ord2ymd n0
  = let n := n0 - 1 in
    let n400 := n / 146097 in
    let r1 := n mod 146097 in
    let n100 := r1 / 36524 in
    let r2 := r1 mod 36524 in
    let n4 := r2 / 1461 in
    let r3 := r2 mod 1461 in
    let n1 := r3 / 365 in
    let r4 := r3 mod 365 in
    let year := n400 * 400 + 1 + n100 * 100 + n4 * 4 + n1 in
    if (n1 =? 4) || (n100 =? 4) then (year - 1, 12, 31)
    else
      let '(m, d) := month_day ((n1 =? 3) && (negb (n4 =? 24) || (n100 =? 3))) r4 in
      (year, m, d).
Proof.
  unfold ord2ymd, month_day. cbv zeta.
  destruct (_ || _); [reflexivity|]. destruct (_ <? _); reflexivity.
Qed.

(** [ord2ymd] gives a date of the calendar, and [ymd2ord] takes it back to
    the day number. *)
Lemma ord2ymd_spec (n0 : Z) :
  1 <= n0 <= MAXORDINAL ->
  exists y m d,
    ord2ymd n0 = (y, m, d)
    /\ 1 <= y <= 9999 /\ 1 <= m <= 12 /\ 1 <= d <= days_in_month y m
    /\ ymd2ord y m d = n0.
Proof.
  unfold MAXORDINAL. intros Hn0. rewrite ord2ymd_month_day. cbv zeta.
  set (n := n0 - 1).
  pose proof (Z.div_mod n 146097 ltac:(lia)) as E1.
  pose proof (Z.mod_pos_bound n 146097 ltac:(lia)) as B1.
  set (a := n / 146097) in *. set (r1 := n mod 146097) in *.
  pose proof (Z.div_mod r1 36524 ltac:(lia)) as E2.
  pose proof (Z.mod_pos_bound r1 36524 ltac:(lia)) as B2.
  set (b := r1 / 36524) in *. set (r2 := r1 mod 36524) in *.
  pose proof (Z.div_mod r2 1461 ltac:(lia)) as E3.
  pose proof (Z.mod_pos_bound r2 1461 ltac:(lia)) as B3.
  set (c := r2 / 1461) in *. set (r3 := r2 mod 1461) in *.
  pose proof (Z.div_mod r3 365 ltac:(lia)) as E4.
  pose proof (Z.mod_pos_bound r3 365 ltac:(lia)) as B4.
  set (d := r3 / 365) in *. set (r4 := r3 mod 365) in *.
  assert (Hn : 0 <= n <= 3652058) by (unfold n; lia).
  assert (Ha : 0 <= a <= 24) by lia.
  assert (Hb : 0 <= b <= 4) by lia.
  assert (Hc : 0 <= c <= 24) by lia.
  assert (Hd : 0 <= d <= 4) by lia.
  destruct ((d =? 4) || (b =? 4)) eqn:Hlast.
  - (* the last day of a leap year *)
    assert (Hcase : (b = 4 /\ c = 0 /\ d = 0 /\ r4 = 0)
                    \/ (b <= 3 /\ c <= 23 /\ d = 4 /\ r4 = 0)).
    { apply orb_true_iff in Hlast as [Hd4%Z.eqb_eq|Hb4%Z.eqb_eq]; lia. }
    exists (a * 400 + 1 + b * 100 + c * 4 + d - 1), 12, 31.
    split; [reflexivity|].
    destruct Hcase as [(-> & -> & -> & Hr4)|(Hb3 & Hc23 & -> & Hr4)].
    + replace (a * 400 + 1 + 4 * 100 + 0 * 4 + 0 - 1)
        with (400 * a + 100 * 3 + 4 * 24 + 3 + 1) by lia.
      unfold ymd2ord, days_in_month, days_before_month.
      rewrite (is_leap_cycles a 3 24 3), (days_before_year_cycles a 3 24 3) by lia.
      simpl. repeat split; lia.
    + replace (a * 400 + 1 + b * 100 + c * 4 + 4 - 1)
        with (400 * a + 100 * b + 4 * c + 3 + 1) by lia.
      unfold ymd2ord, days_in_month, days_before_month.
      rewrite (is_leap_cycles a b c 3), (days_before_year_cycles a b c 3) by lia.
      destruct (Z.eqb_spec c 24); [lia|]. simpl.
      repeat split; lia.
  - apply orb_false_iff in Hlast as [Hd4%Z.eqb_neq Hb4%Z.eqb_neq].
    replace (a * 400 + 1 + b * 100 + c * 4 + d)
      with (400 * a + 100 * b + 4 * c + d + 1) by lia.
    rewrite <- (is_leap_cycles a b c d) by lia.
    set (y := 400 * a + 100 * b + 4 * c + d + 1).
    pose proof (month_day_spec (is_leap y) r4) as Hok.
    unfold month_day_ok in Hok.
    destruct (month_day (is_leap y) r4) as [m day].
    exists y, m, day. split; [reflexivity|].
    assert (Hr4 : 0 <= r4 < (if is_leap y then 366 else 365))
      by (destruct (is_leap y); lia).
    specialize (Hok Hr4).
    repeat (apply andb_true_iff in Hok as [Hok ?]).
    unfold ymd2ord, days_in_month, days_before_month.
    assert (Hdby : days_before_year y = 146097 * a + 36524 * b + 1461 * c + 365 * d)
      by (apply days_before_year_cycles; lia).
    rewrite Hdby.
    split; [unfold y; lia|]. split; [lia|]. split; [lia|]. lia.
Qed.

Lemma days_in_month_le_31 (y m : Z) : 1 <= m <= 12 -> days_in_month y m <= 31.
Proof.
  intros Hm. unfold days_in_month.
  destruct ((m =? 2) && is_leap y); [lia|].
  assert (Hcases : m = 1 \/ m = 2 \/ m = 3 \/ m = 4 \/ m = 5 \/ m = 6 \/ m = 7
                   \/ m = 8 \/ m = 9 \/ m = 10 \/ m = 11 \/ m = 12) by lia.
  repeat (destruct Hcases as [->|Hcases]; [simpl; lia|]).
  rewrite Hcases. simpl. lia.
Qed.

Lemma four_digits (y : Z) :
  0 <= y <= 9999 ->
  1000 * ((y / 1000) mod 10) + 100 * ((y / 100) mod 10) + 10 * ((y / 10) mod 10)
  + y mod 10 = y.
Proof. intros Hy. Z.div_mod_to_equations. lia. Qed.

Lemma strptime_of_strftime (t : datetime) :
  1 <= ordinal t <= MAXORDINAL ->
  strptime (strftime t) = Ok (midnight (ordinal t)).
Proof.
  intros Ht.
  destruct (ord2ymd_spec (ordinal t) Ht) as (y & m & d & Hymd & Hy & Hm & Hd & Hord).
  pose proof (days_in_month_le_31 y m Hm) as H31.
  unfold strftime, strptime. rewrite Hymd.
  rewrite list_ascii_of_string_of_list_ascii.
  rewrite !digit_val_digit_char.
  rewrite (parse_month_two_digits m _ Hm).
  change (Ascii.eqb "-" "-") with true. simpl andb. cbv iota.
  rewrite (two_digits_spec d) by lia.
  rewrite (four_digits y) by lia.
  unfold make_date.
  destruct (Z.leb_spec 1 y); [|lia]. destruct (Z.leb_spec y 9999); [|lia].
  destruct (Z.leb_spec 1 m); [|lia]. destruct (Z.leb_spec m 12); [|lia].
  destruct (Z.leb_spec 1 d); [|lia]. destruct (Z.leb_spec d (days_in_month y m)); [|lia].
  simpl. rewrite Hord. reflexivity.
Qed.





(** * Further properties of the aggregators *)

Section FirstFault.
Variables (cond : row -> result bool) (expr : row -> result Z).
Variables (keep : row -> bool) (value : row -> Z).

(** The first row on which the condition or the expression raises ends
    the comprehension with that exception. *)
Lemma comprehension_first_fault (before after : file) (bad : row) (e : exn) :
  Forall (fun r => cond r = Ok (keep r) /\ (keep r = true -> expr r = Ok (value r)))
    before ->
  cond bad = Raise e \/ (cond bad = Ok true /\ expr bad = Raise e) ->
  comprehension cond expr (before ++ bad :: after) = Raise e.
Proof.
  intros Hbefore Hbad.
  induction Hbefore as [|r before [Hc He] _ IH]; simpl.
  - destruct Hbad as [->|[-> ->]]; reflexivity.
  - rewrite Hc. simpl. destruct (keep r); simpl; [|exact IH].
    rewrite (He eq_refl). simpl. rewrite IH. reflexivity.
Qed.
End FirstFault.

Lemma py_int_fails (field : string) :
  is_ok (py_int field) = false -> py_int field = Raise ValueError.
Proof. unfold py_int. by destruct (parse_signed _). Qed.



Lemma py_sum_app (l1 l2 : list Z) : py_sum (l1 ++ l2) = py_sum l1 + py_sum l2.
Proof. induction l1 as [|x l1 IH]; simpl; [reflexivity|]. rewrite IH. lia. Qed.

(** Adding [x] under one key of a list without repetition adds [x] to the
    sum over the keys. *)
Lemma py_sum_one_key (keys : list string) (k0 : string) (x : Z) (f : string -> Z) :
  NoDup keys -> k0 ∈ keys ->
  py_sum (map (fun k => if decide (k = k0) then x + f k else f k) keys)
  = x + py_sum (map f keys).
Proof.
  induction 1 as [|k keys Hk Hnd IH]; intros Hin; [by apply elem_of_nil in Hin|].
  simpl. apply elem_of_cons in Hin as [->|Hin].
  - rewrite decide_True by done.
    assert (Hsame : map (fun k' => if decide (k' = k) then x + f k' else f k') keys
                    = map f keys).
    { apply map_ext_in. intros k' Hk'%list_elem_of_In.
      rewrite decide_False; [reflexivity|]. intros ->. by apply Hk. }
    rewrite Hsame. lia.
  - rewrite decide_False by (intros ->; by apply Hk). rewrite (IH Hin). lia.
Qed.

Lemma per_branch_sums (keys : list string) (sales : file) :
  NoDup keys ->
  Forall (sale_known keys) sales ->
  py_sum (map (fun k => py_sum (amounts_where 0 k sales)) keys)
  = py_sum (map amount_of sales).
Proof.
  intros Hnd. induction 1 as [|sale sales Hsale _ IH]; simpl.
  - clear Hnd. induction keys as [|k keys IHk]; simpl; [reflexivity|].
    by rewrite IHk.
  - destruct Hsale as (k0 & Hk0 & Hin & _). rewrite <- IH.
    rewrite <- (py_sum_one_key keys k0 (amount_of sale)
                  (fun k => py_sum (amounts_where 0 k sales)) Hnd Hin).
    f_equal. apply map_ext. intros k.
    rewrite (amounts_where_cons k0 k sale sales Hk0).
    by destruct (decide (k = k0)).
Qed.



(** ** Order of the price statistics *)

Lemma py_sum_bounds (lo hi : Z) (l : list Z) :
  Forall (fun p => lo <= p) l -> Forall (fun p => p <= hi) l ->
  lo * Z.of_nat (length l) <= py_sum l <= hi * Z.of_nat (length l).
Proof.
  induction l as [|x l IH]; intros Hlo Hhi; simpl length; simpl py_sum; [lia|].
  apply Forall_cons in Hlo as [Hx Hlo]. apply Forall_cons in Hhi as [Hx' Hhi].
  specialize (IH Hlo Hhi). lia.
Qed.

Lemma quotient_between (lo hi total count : Z) :
  0 < count ->
  lo * count <= total <= hi * count ->
  (inject_Z lo <= inject_Z total / inject_Z count <= inject_Z hi)%Q.
Proof.
  intros Hpos [Hlo Hhi].
  assert (Hc : (inject_Z 0 < inject_Z count)%Q) by (by rewrite <- Zlt_Qlt).
  split.
  - apply Qle_shift_div_l; [exact Hc|].
    by rewrite <- inject_Z_mult, <- Zle_Qle.
  - apply Qle_shift_div_r; [exact Hc|].
    by rewrite <- inject_Z_mult, <- Zle_Qle.
Qed.

Lemma np_stats_ordered (l : list Z) (lo hi : Z) (mean median : npfloat) :
  l <> [] ->
  np_min l = Ok lo -> np_max l = Ok hi -> np_mean l = mean -> np_median l = median ->
  exists mu med : Q,
    mean = Fin mu /\ median = Fin med
    /\ lo <= hi
    /\ (inject_Z lo <= mu <= inject_Z hi)%Q
    /\ (inject_Z lo <= med <= inject_Z hi)%Q.
Proof.
  intros Hne Hmin Hmax <- <-.
  destruct (np_min_least l Hne) as (lo' & Hlo' & Hlo_in & Hlo).
  destruct (np_max_greatest l Hne) as (hi' & Hhi' & Hhi_in & Hhi).
  rewrite Hlo' in Hmin. rewrite Hhi' in Hmax.
  injection Hmin as ->. injection Hmax as ->.
  destruct (np_median_middle l Hne)
    as (sorted & med & Hmed & Hperm & _ & Hodd & Heven).
  assert (Hlen : (0 < length l)%nat) by (destruct l; [done|simpl; lia]).
  assert (Hnth : forall i, (i < length l)%nat -> lo <= nth i sorted 0 <= hi).
  { intros i Hi.
    assert (Hin : In (nth i sorted 0) l).
    { apply (Permutation_in _ (Permutation_sym Hperm)).
      apply nth_In. by rewrite <- (Permutation_length Hperm). }
    rewrite Forall_forall in Hlo, Hhi.
    split; [apply Hlo|apply Hhi]; by apply list_elem_of_In. }
  exists (inject_Z (py_sum l) / inject_Z (Z.of_nat (length l)))%Q, med.
  split; [by destruct l|]. split; [exact Hmed|].
  split.
  { rewrite Forall_forall in Hhi. apply Hhi. by apply list_elem_of_In. }
  split.
  - apply quotient_between; [lia|]. by apply py_sum_bounds.
  - assert (Hhalf : (length l / 2 < length l)%nat)
      by (apply Nat.div_lt; lia).
    destruct (Nat.even (length l)) eqn:Hparity.
    + rewrite (Heven eq_refl).
      pose proof (Hnth (length l / 2 - 1)%nat ltac:(lia)) as H1.
      pose proof (Hnth (length l / 2)%nat Hhalf) as H2.
      apply quotient_between; lia.
    + rewrite (Hodd eq_refl). rewrite <- !Zle_Qle. by apply Hnth.
Qed.



(** ** Order of the rows *)

Lemma py_sum_Permutation (l l' : list Z) : Permutation l l' -> py_sum l = py_sum l'.
Proof. induction 1; simpl; lia. Qed.

Lemma sort_Permutation (l l' : list Z) : Permutation l l' -> sort l = sort l'.
Proof.
  intros Hperm. apply (Sorted_unique Z.le); [apply sort_sorted..|].
  rewrite <- (sort_perm l), <- (sort_perm l'). exact Hperm.
Qed.

Lemma np_mean_Permutation (l l' : list Z) : Permutation l l' -> np_mean l = np_mean l'.
Proof.
  intros Hperm. pose proof (Permutation_length Hperm) as Hlen.
  pose proof (py_sum_Permutation l l' Hperm) as Hsum.
  destruct l, l'; try discriminate Hlen; [reflexivity|].
  unfold np_mean. by rewrite Hsum, Hlen.
Qed.

Lemma np_median_Permutation (l l' : list Z) :
  Permutation l l' -> np_median l = np_median l'.
Proof.
  intros Hperm. unfold np_median.
  by rewrite (sort_Permutation l l' Hperm), (Permutation_length Hperm).
Qed.

Lemma np_max_Permutation (l l' : list Z) : Permutation l l' -> np_max l = np_max l'.
Proof.
  intros Hperm. destruct l as [|x l].
  - by apply Permutation_nil in Hperm as ->.
  - destruct l' as [|x' l']; [by apply Permutation_nil_r in Hperm|].
    destruct (np_max_greatest (x :: l) ltac:(done)) as (m & -> & Hin & Hub).
    destruct (np_max_greatest (x' :: l') ltac:(done)) as (m' & -> & Hin' & Hub').
    f_equal. rewrite Forall_forall in Hub, Hub'.
    apply Z.le_antisymm.
    + apply Hub'. apply list_elem_of_In. by apply (Permutation_in _ Hperm).
    + apply Hub. apply list_elem_of_In.
      by apply (Permutation_in _ (Permutation_sym Hperm)).
Qed.

Lemma np_min_Permutation (l l' : list Z) : Permutation l l' -> np_min l = np_min l'.
Proof.
  intros Hperm. destruct l as [|x l].
  - by apply Permutation_nil in Hperm as ->.
  - destruct l' as [|x' l']; [by apply Permutation_nil_r in Hperm|].
    destruct (np_min_least (x :: l) ltac:(done)) as (m & -> & Hin & Hlb).
    destruct (np_min_least (x' :: l') ltac:(done)) as (m' & -> & Hin' & Hlb').
    f_equal. rewrite Forall_forall in Hlb, Hlb'.
    apply Z.le_antisymm.
    + apply Hlb. apply list_elem_of_In.
      by apply (Permutation_in _ (Permutation_sym Hperm)).
    + apply Hlb'. apply list_elem_of_In. by apply (Permutation_in _ Hperm).
Qed.

Lemma amounts_where_Permutation (i : nat) (key : string) (sales sales' : file) :
  Permutation sales sales' ->
  Permutation (amounts_where i key sales) (amounts_where i key sales').
Proof. intros Hperm. unfold amounts_where. by rewrite Hperm. Qed.



(** ** The window of the weekly report *)

Lemma strptime_midnight (field : string) (date : datetime) :
  strptime field = Ok date -> micros date = 0.
Proof.
  unfold strptime, make_date. intros H.
  repeat case_match. all: try discriminate. all: injection H as H; by rewrite <- H.
Qed.

Lemma filter_bool_decide {A} (P : A -> Prop) `{!forall x, Decision (P x)} (l : list A) :
  List.filter (fun x => bool_decide (P x)) l = filter P l.
Proof.
  induction l as [|x l IH]; simpl; [reflexivity|].
  rewrite filter_cons, IH.
  destruct (decide (P x));
    [rewrite bool_decide_eq_true_2 by done|rewrite bool_decide_eq_false_2 by done];
    reflexivity.
Qed.

Lemma in_week_days (today : datetime) (sale : row) :
  clock_in_range today ->
  well_formed_sale sale = true ->
  in_week {| ordinal := monday_of today; micros := micros today |}
    {| ordinal := monday_of today + 6; micros := micros today |} sale
  = Ok (bool_decide (first_day_kept today <= sale_day sale <= monday_of today + 6)).
Proof.
  intros (_ & _ & Hmicros) Hwf.
  unfold well_formed_sale in Hwf. apply andb_true_iff in Hwf as [_ Hdate].
  unfold in_week, sale_day, first_day_kept.
  destruct (getitem sale 3) as [field|]; simpl in *; [|discriminate].
  destruct (strptime field) as [date|] eqn:Hfield; simpl in *; [|discriminate].
  pose proof (strptime_midnight field date Hfield) as Hzero.
  f_equal. unfold datetime_le. simpl. rewrite Hzero.
  destruct (Z.eqb_spec (micros today) 0) as [Hmid|Hlate];
    repeat match goal with
           | |- context [Z.ltb ?x ?y] => destruct (Z.ltb_spec x y)
           | |- context [Z.leb ?x ?y] => destruct (Z.leb_spec x y)
           | |- context [Z.eqb ?x ?y] => destruct (Z.eqb_spec x y)
           end; simpl; try (exfalso; lia);
    first [rewrite bool_decide_eq_true_2 by lia
          |rewrite bool_decide_eq_false_2 by lia]; reflexivity.
Qed.



(** * Login and main program *)

(** Where every row has two fields, the loop over the rows finds out
    whether some row holds the user name and the password. *)
Lemma login_rows_spec (username password : string) (rows : file) :
  Forall (fun r => (2 <= length r)%nat) rows ->
  exists granted : bool,
    login_rows username password rows = Ok granted
    /\ (granted = true <->
        exists r, r ∈ rows /\ r !! 0%nat = Some username /\ r !! 1%nat = Some password).
Proof.
  induction 1 as [|r rows Hr _ IH]; simpl.
  - exists false. split; [reflexivity|]. split; [discriminate|].
    intros (r & Hin & _). by apply elem_of_nil in Hin.
  - destruct r as [|name [|secret r]]; simpl in Hr; try lia. simpl.
    destruct IH as (granted & Hrest & Hiff).
    destruct (String.eqb_spec name username) as [->|Hname]; simpl.
    + destruct (String.eqb_spec secret password) as [->|Hsecret].
      * exists true. split; [reflexivity|]. split; [|done].
        intros _. exists (username :: password :: r). split; [by left|done].
      * exists granted. split; [exact Hrest|]. rewrite Hiff. split.
        -- intros (r' & Hin & H0 & H1). exists r'. split; [by right|done].
        -- intros (r' & Hin & H0 & H1).
           apply elem_of_cons in Hin as [->|Hin]; [simpl in H1; congruence|].
           by exists r'.
    + exists granted. split; [exact Hrest|]. rewrite Hiff. split.
      * intros (r' & Hin & H0 & H1). exists r'. split; [by right|done].
      * intros (r' & Hin & H0 & H1).
        apply elem_of_cons in Hin as [->|Hin]; [simpl in H0; congruence|].
        by exists r'.
Qed.

Lemma login_steps (w : world) (username password : string) (rest : list string) :
  stdin w = username :: password :: rest ->
  login w
  = (rows ← open_read USER_FILE (files w);
     granted ← lift (login_rows username password rows);
     Done (granted, {| files := files w; stdin := rest; clock := clock w |})).
Proof. intros Hstdin. unfold login, input. rewrite Hstdin. reflexivity. Qed.

(** X15: [login] reads a user name and a password and grants access
    exactly when some row of the users file holds them in its first two
    fields.  The header row is a row like the others: it is not skipped.
    When the users file does not exist, [login] fails with
    [FileNotFoundError] after it has read the two lines. *)
Theorem login_grants (w : world) (username password : string) (rest : list string) :
  stdin w = username :: password :: rest ->
  (files w !! USER_FILE = None -> login w = Failed FileNotFoundError)
  /\ (forall rows,
        files w !! USER_FILE = Some rows ->
        Forall (fun r => (2 <= length r)%nat) rows ->
        exists granted : bool,
          login w
          = Done (granted, {| files := files w; stdin := rest; clock := clock w |})
          /\ (granted = true <->
              exists r, r ∈ rows /\ r !! 0%nat = Some username
                        /\ r !! 1%nat = Some password)).
Proof.
  intros Hstdin. rewrite (login_steps w username password rest Hstdin).
  unfold open_read. split.
  - intros ->. reflexivity.
  - intros rows -> Hrows.
    destruct (login_rows_spec username password rows Hrows) as (granted & Hrun & Hiff).
    exists granted. simpl. rewrite Hrun. done.
Qed.

Lemma login_grants_witness :
  login {| files := ∅; stdin := ["admin"; "secret"]; clock := noon_2024_01_03 |}
  = Failed FileNotFoundError.
Proof.
  apply (login_grants
           {| files := ∅; stdin := ["admin"; "secret"]; clock := noon_2024_01_03 |}
           "admin" "secret" []); reflexivity.
Defined.

Section CreateIfMissing.
Variables (name : string) (h : string) (hs : row) (fs : filesystem).

Lemma create_if_missing_lookup :
  create_if_missing name (h :: hs) fs !! name
  = Some (default [h :: hs] (fs !! name)).
Proof.
  unfold create_if_missing. destruct (fs !! name) as [content|] eqn:Hfile.
  - by rewrite (path_exists_present name fs content Hfile).
  - rewrite (path_exists_absent name fs Hfile). by apply save_data_creates.
Qed.

Lemma create_if_missing_other (other : string) :
  name <> other -> create_if_missing name (h :: hs) fs !! other = fs !! other.
Proof.
  intros Hne. unfold create_if_missing.
  destruct (path_exists name fs); [reflexivity|]. by apply save_data_other.
Qed.

Lemma create_if_missing_present :
  is_Some (fs !! name) -> create_if_missing name (h :: hs) fs = fs.
Proof.
  intros [content Hfile]. unfold create_if_missing.
  by rewrite (path_exists_present name fs content Hfile).
Qed.
End CreateIfMissing.

Lemma main_create_files_users (fs : filesystem) :
  main_create_files fs !! USER_FILE
  = Some (default [["Username"; "Password"]] (fs !! USER_FILE)).
Proof.
  unfold main_create_files.
  rewrite !create_if_missing_other by discriminate.
  apply create_if_missing_lookup.
Qed.

Lemma main_create_files_branches (fs : filesystem) :
  main_create_files fs !! BRANCHES_FILE
  = Some (default [["Branch ID"; "Branch Name"; "Location"]] (fs !! BRANCHES_FILE)).
Proof.
  unfold main_create_files.
  rewrite !create_if_missing_other by discriminate.
  rewrite create_if_missing_lookup.
  by rewrite create_if_missing_other by discriminate.
Qed.

Lemma main_create_files_products (fs : filesystem) :
  main_create_files fs !! PRODUCTS_FILE
  = Some (default [["Product ID"; "Product Name"]] (fs !! PRODUCTS_FILE)).
Proof.
  unfold main_create_files.
  rewrite !create_if_missing_other by discriminate.
  rewrite create_if_missing_lookup.
  by rewrite !create_if_missing_other by discriminate.
Qed.

Lemma main_create_files_sales (fs : filesystem) :
  main_create_files fs !! SALES_FILE
  = Some (default [["Branch ID"; "Product ID"; "Amount Sold"; "Date"]]
            (fs !! SALES_FILE)).
Proof.
  unfold main_create_files.
  rewrite create_if_missing_lookup.
  by rewrite !create_if_missing_other by discriminate.
Qed.

Lemma main_create_files_other (fs : filesystem) (name : string) :
  name ∉ [USER_FILE; BRANCHES_FILE; PRODUCTS_FILE; SALES_FILE] ->
  main_create_files fs !! name = fs !! name.
Proof.
  rewrite !not_elem_of_cons. intros (H1 & H2 & H3 & H4 & _).
  unfold main_create_files. by rewrite !create_if_missing_other.
Qed.

(** X16: the set-up of [main] heals missing containers and touches nothing
    else.  After it the four containers exist; one that existed holds what
    it held, one that was missing holds its header row only; no other file
    is changed; and running the set-up again changes nothing. *)
Theorem main_create_files_spec (fs : filesystem) :
  main_create_files fs !! USER_FILE
  = Some (default [["Username"; "Password"]] (fs !! USER_FILE))
  /\ main_create_files fs !! BRANCHES_FILE
     = Some (default [["Branch ID"; "Branch Name"; "Location"]] (fs !! BRANCHES_FILE))
  /\ main_create_files fs !! PRODUCTS_FILE
     = Some (default [["Product ID"; "Product Name"]] (fs !! PRODUCTS_FILE))
  /\ main_create_files fs !! SALES_FILE
     = Some (default [["Branch ID"; "Product ID"; "Amount Sold"; "Date"]]
               (fs !! SALES_FILE))
  /\ (forall name,
        name ∉ [USER_FILE; BRANCHES_FILE; PRODUCTS_FILE; SALES_FILE] ->
        main_create_files fs !! name = fs !! name)
  /\ main_create_files (main_create_files fs) = main_create_files fs.
Proof.
  split; [apply main_create_files_users|].
  split; [apply main_create_files_branches|].
  split; [apply main_create_files_products|].
  split; [apply main_create_files_sales|].
  split; [apply main_create_files_other|].
  set (fs' := main_create_files fs).
  assert (H1 : is_Some (fs' !! USER_FILE))
    by (unfold fs'; rewrite main_create_files_users; eauto).
  assert (H2 : is_Some (fs' !! BRANCHES_FILE))
    by (unfold fs'; rewrite main_create_files_branches; eauto).
  assert (H3 : is_Some (fs' !! PRODUCTS_FILE))
    by (unfold fs'; rewrite main_create_files_products; eauto).
  assert (H4 : is_Some (fs' !! SALES_FILE))
    by (unfold fs'; rewrite main_create_files_sales; eauto).
  unfold main_create_files at 1.
  rewrite (create_if_missing_present USER_FILE _ _ fs' H1).
  rewrite (create_if_missing_present BRANCHES_FILE _ _ fs' H2).
  rewrite (create_if_missing_present PRODUCTS_FILE _ _ fs' H3).
  by rewrite (create_if_missing_present SALES_FILE _ _ fs' H4).
Qed.

Lemma main_create_files_spec_witness :
  main_create_files one_branch !! "notes.txt" = one_branch !! "notes.txt".
Proof.
  apply (main_create_files_spec one_branch).
  rewrite !not_elem_of_cons. repeat split; try discriminate. apply not_elem_of_nil.
Defined.

(** X17: on a system without users file, the only credentials [main] lets
    in are the two words of the header it has just written.  After the
    set-up of [main], [login] grants access exactly when the operator types
    Username and then Password. *)
Theorem fresh_install_credentials (w : world) (username password : string)
    (rest : list string) :
  files w !! USER_FILE = None ->
  stdin w = username :: password :: rest ->
  exists granted : bool,
    login (set_files w (main_create_files (files w)))
    = Done (granted, {| files := main_create_files (files w); stdin := rest;
                        clock := clock w |})
    /\ (granted = true <-> username = "Username" /\ password = "Password").
Proof.
  intros Hfile Hstdin.
  rewrite (login_steps _ username password rest) by exact Hstdin.
  unfold open_read, set_files. cbn [files stdin clock].
  rewrite main_create_files_users, Hfile.
  destruct (login_rows_spec username password [["Username"; "Password"]])
    as (granted & Hrun & Hiff); [repeat constructor|].
  exists granted. split.
  - cbn [default mbind outcome_bind]. rewrite Hrun. reflexivity.
  - rewrite Hiff. split.
    + intros (r & Hin & H0 & H1). apply list_elem_of_singleton in Hin as ->.
      simpl in H0, H1. split; congruence.
    + intros [-> ->]. exists ["Username"; "Password"]. split; [by left|done].
Qed.

Lemma fresh_install_credentials_witness :
  exists granted : bool,
    login (set_files {| files := ∅; stdin := ["Username"; "Password"];
                        clock := noon_2024_01_03 |} (main_create_files ∅))
    = Done (granted, {| files := main_create_files ∅; stdin := [];
                        clock := noon_2024_01_03 |})
    /\ (granted = true <-> "Username" = "Username" /\ "Password" = "Password").
Proof.
  apply (fresh_install_credentials
           {| files := ∅; stdin := ["Username"; "Password"]; clock := noon_2024_01_03 |}
           "Username" "Password" []); reflexivity.
Defined.

(** ** The session *)

Lemma extends_refl (fs : filesystem) : extends fs fs.
Proof.
  intros name. split; [|done]. intros content ->. exists []. by rewrite app_nil_r.
Qed.

Lemma extends_trans (fs1 fs2 fs3 : filesystem) :
  extends fs1 fs2 -> extends fs2 fs3 -> extends fs1 fs3.
Proof.
  intros H12 H23 name. destruct (H12 name) as [Hrows12 Hsame12].
  destruct (H23 name) as [Hrows23 Hsame23]. split.
  - intros content Hc. destruct (Hrows12 content Hc) as [added Hc2].
    destruct (Hrows23 _ Hc2) as [added' Hc3].
    exists (added ++ added'). by rewrite app_assoc.
  - intros Hb Hs. by rewrite Hsame23, Hsame12.
Qed.

Lemma save_data_extends (name : string) (data : file) (headers : option row)
    (fs : filesystem) :
  name = BRANCHES_FILE \/ name = SALES_FILE ->
  extends fs (save_data name data headers fs).
Proof.
  intros Hname other. split.
  - intros content Hc. destruct (decide (name = other)) as [<-|Hne].
    + exists data. by apply save_data_appends.
    + exists []. by rewrite app_nil_r, save_data_other.
  - intros Hb Hs. apply save_data_other. destruct Hname; congruence.
Qed.

(** What [execute] may change: it reads input from the front, leaves the
    clock alone and only adds rows to storage. *)
Lemma execute_extends (c : Command) (w w' : world) (r : option report) :
  execute c w = Ok (r, w') ->
  clock w' = clock w
  /\ (exists used, stdin w = used ++ stdin w')
  /\ extends (files w) (files w').
Proof.
  intros Hexec. destruct (is_reporting c) eqn:Hrep.
  - destruct (reporting_execute_inv c w r w' Hrep Hexec) as [-> _].
    split; [done|]. split; [by exists []|apply extends_refl].
  - destruct c; try discriminate Hrep; simpl in Hexec.
    + destruct (AddBranchCommand_execute w) as [w1|] eqn:H1; [|discriminate].
      simpl in Hexec. injection Hexec as <- <-.
      apply AddBranchCommand_execute_inv in H1
        as (branches & x & y & z & _ & Hin & Hclock & ->).
      split; [done|]. split; [by exists [x; y; z]|].
      apply save_data_extends. by left.
    + destruct (AddSaleCommand_execute w) as [w1|] eqn:H1; [|discriminate].
      simpl in Hexec. injection Hexec as <- <-.
      apply AddSaleCommand_execute_inv in H1
        as (sales & x & y & z & _ & Hin & Hclock & ->).
      split; [done|]. split; [by exists [x; y; z]|].
      apply save_data_extends. by right.
Qed.

Lemma execute_stdin_length (c : Command) (w w' : world) (r : option report) :
  execute c w = Ok (r, w') -> (length (stdin w') <= length (stdin w))%nat.
Proof.
  intros (_ & (used & ->) & _)%execute_extends. rewrite length_app. lia.
Qed.

Lemma input_inv (w : world) (line : string) (w' : world) :
  input w = Ok (line, w') ->
  stdin w = line :: stdin w' /\ files w' = files w /\ clock w' = clock w.
Proof. apply input_stdin. Qed.

Lemma input_fails (w : world) (e : exn) : input w = Raise e -> e = EOFError.
Proof. unfold input. destruct (stdin w); [by intros [= <-]|discriminate]. Qed.

Lemma login_inv (w : world) :
  match login w with
  | Done (_, w') =>
      files w' = files w /\ clock w' = clock w
      /\ (exists username password, stdin w = username :: password :: stdin w')
  | Failed FileNotFoundError => files w !! USER_FILE = None
  | Failed (Uncaught _) => True
  end.
Proof.
  unfold login, input.
  destruct (stdin w) as [|username [|password rest]]; simpl; try done.
  unfold open_read.
  destruct (files w !! USER_FILE) as [rows|] eqn:Hfile; simpl; [|done].
  destruct (login_rows username password rows); simpl; [|done].
  split; [done|]. split; [done|]. by exists username, password.
Qed.

Lemma main_login_loop_S (fuel : nat) (w : world) :
  main_login_loop (S fuel) w
  = match login w with
    | Failed f => Some (Failed f)
    | Done (true, w) => Some (Done w)
    | Done (false, w) => main_login_loop fuel w
    end.
Proof. reflexivity. Qed.

Lemma main_menu_loop_S (fuel : nat) (w : world) :
  main_menu_loop (S fuel) w
  = match input w with
    | Raise e => Some (Failed (Uncaught e))
    | Ok (choice, w) =>
        match commands choice with
        | Some LogOut => Some (Done w)
        | Some (Unary make) =>
            match input w with
            | Raise e => Some (Failed (Uncaught e))
            | Ok (param, w) =>
                match execute (make param) w with
                | Raise e => Some (Failed (Uncaught e))
                | Ok (_, w) => main_menu_loop fuel w
                end
            end
        | Some (Niladic command) =>
            match execute command w with
            | Raise e => Some (Failed (Uncaught e))
            | Ok (_, w) => main_menu_loop fuel w
            end
        | None => main_menu_loop fuel w
        end
    end.
Proof. reflexivity. Qed.

(** With more fuel than lines of input, the login loop comes to an end,
    and more fuel does not change how. *)
Lemma main_login_loop_total (fuel : nat) :
  forall w, (length (stdin w) < fuel)%nat ->
    exists o, forall fuel', (fuel <= fuel')%nat -> main_login_loop fuel' w = Some o.
Proof.
  induction fuel as [|fuel IH]; intros w Hlen; [lia|].
  pose proof (login_inv w) as Hinv.
  destruct (login w) as [[granted w1]|f] eqn:Hlogin.
  - destruct Hinv as (_ & _ & (username & password & Hstdin)).
    destruct granted.
    + exists (Done w1). intros [|fuel'] Hfuel; [lia|].
      by rewrite main_login_loop_S, Hlogin.
    + destruct (IH w1) as [o Ho]; [rewrite Hstdin in Hlen; simpl in Hlen; lia|].
      exists o. intros [|fuel'] Hfuel; [lia|].
      rewrite main_login_loop_S, Hlogin. apply Ho. lia.
  - exists (Failed f). intros [|fuel'] Hfuel; [lia|].
    by rewrite main_login_loop_S, Hlogin.
Qed.

Lemma main_login_loop_inv (fuel : nat) :
  forall w o, main_login_loop fuel w = Some o ->
    match o with
    | Done w' =>
        files w' = files w /\ clock w' = clock w
        /\ (length (stdin w') <= length (stdin w))%nat
    | Failed FileNotFoundError => files w !! USER_FILE = None
    | Failed (Uncaught _) => True
    end.
Proof.
  induction fuel as [|fuel IH]; intros w o; [discriminate|].
  rewrite main_login_loop_S. pose proof (login_inv w) as Hinv.
  destruct (login w) as [[granted w1]|f] eqn:Hlogin.
  - destruct Hinv as (Hfiles & Hclock & (username & password & Hstdin)).
    assert (Hlen : (length (stdin w1) <= length (stdin w))%nat)
      by (rewrite Hstdin; simpl; lia).
    destruct granted.
    + intros [= <-]. done.
    + intros Hrun. specialize (IH w1 o Hrun).
      destruct o as [w'|[|e]]; [|by rewrite <- Hfiles|done].
      destruct IH as (-> & -> & Hlen'). split; [done|]. split; [done|]. lia.
  - intros [= <-]. by destruct f.
Qed.

Lemma main_menu_loop_total (fuel : nat) :
  forall w, (length (stdin w) < fuel)%nat ->
    exists o, forall fuel', (fuel <= fuel')%nat -> main_menu_loop fuel' w = Some o.
Proof.
  induction fuel as [|fuel IH]; intros w Hlen; [lia|].
  destruct (input w) as [[choice w1]|e] eqn:Hin.
  2:{ exists (Failed (Uncaught e)). intros [|fuel'] Hfuel; [lia|].
      by rewrite main_menu_loop_S, Hin. }
  pose proof (input_inv w choice w1 Hin) as (Hstdin & _ & _).
  assert (Hlen1 : (length (stdin w1) < fuel)%nat)
    by (rewrite Hstdin in Hlen; simpl in Hlen; lia).
  destruct (commands choice) as [[c|make|]|] eqn:Hc.
  - destruct (execute c w1) as [[r w2]|e] eqn:Hexec.
    + pose proof (execute_stdin_length c w1 w2 r Hexec) as Hlen2.
      destruct (IH w2 ltac:(lia)) as [o Ho].
      exists o. intros [|fuel'] Hfuel; [lia|].
      rewrite main_menu_loop_S, Hin. cbv iota beta. rewrite Hc. cbv iota beta.
      rewrite Hexec. cbv iota beta. apply Ho. lia.
    + exists (Failed (Uncaught e)). intros [|fuel'] Hfuel; [lia|].
      rewrite main_menu_loop_S, Hin. cbv iota beta. rewrite Hc. cbv iota beta.
      by rewrite Hexec.
  - destruct (input w1) as [[param w2]|e] eqn:Hin2.
    2:{ exists (Failed (Uncaught e)). intros [|fuel'] Hfuel; [lia|].
        rewrite main_menu_loop_S, Hin. cbv iota beta. rewrite Hc. cbv iota beta.
        by rewrite Hin2. }
    pose proof (input_inv w1 param w2 Hin2) as (Hstdin2 & _ & _).
    destruct (execute (make param) w2) as [[r w3]|e] eqn:Hexec.
    + pose proof (execute_stdin_length _ w2 w3 r Hexec) as Hlen3.
      destruct (IH w3) as [o Ho];
        [rewrite Hstdin2 in Hlen1; simpl in Hlen1; lia|].
      exists o. intros [|fuel'] Hfuel; [lia|].
      rewrite main_menu_loop_S, Hin. cbv iota beta. rewrite Hc. cbv iota beta.
      rewrite Hin2. cbv iota beta. rewrite Hexec. cbv iota beta. apply Ho. lia.
    + exists (Failed (Uncaught e)). intros [|fuel'] Hfuel; [lia|].
      rewrite main_menu_loop_S, Hin. cbv iota beta. rewrite Hc. cbv iota beta.
      rewrite Hin2. cbv iota beta. by rewrite Hexec.
  - exists (Done w1). intros [|fuel'] Hfuel; [lia|].
    rewrite main_menu_loop_S, Hin. cbv iota beta. by rewrite Hc.
  - destruct (IH w1 Hlen1) as [o Ho].
    exists o. intros [|fuel'] Hfuel; [lia|].
    rewrite main_menu_loop_S, Hin. cbv iota beta. rewrite Hc. apply Ho. lia.
Qed.

Lemma main_menu_loop_inv (fuel : nat) :
  forall w o, main_menu_loop fuel w = Some o ->
    match o with
    | Done w' => extends (files w) (files w') /\ clock w' = clock w
    | Failed f => f <> FileNotFoundError
    end.
Proof.
  induction fuel as [|fuel IH]; intros w o; [discriminate|].
  rewrite main_menu_loop_S.
  destruct (input w) as [[choice w1]|e] eqn:Hin; [|by intros [= <-]].
  pose proof (input_inv w choice w1 Hin) as (_ & Hfiles & Hclock).
  assert (Hstep : forall w2,
             extends (files w1) (files w2) -> clock w2 = clock w1 ->
             main_menu_loop fuel w2 = Some o ->
             match o with
             | Done w' => extends (files w) (files w') /\ clock w' = clock w
             | Failed f => f <> FileNotFoundError
             end).
  { intros w2 Hext Hclock2 Hrun. specialize (IH w2 o Hrun).
    destruct o as [w'|f]; [|exact IH]. destruct IH as [Hext' Hclock'].
    split; [|congruence].
    rewrite <- Hfiles. by apply (extends_trans _ (files w2)). }
  destruct (commands choice) as [[c|make|]|].
  - destruct (execute c w1) as [[r w2]|e] eqn:Hexec; [|by intros [= <-]].
    apply execute_extends in Hexec as (Hclock2 & _ & Hext).
    by apply Hstep.
  - destruct (input w1) as [[param w2]|e] eqn:Hin2; [|by intros [= <-]].
    pose proof (input_inv w1 param w2 Hin2) as (_ & Hfiles2 & Hclock2).
    destruct (execute (make param) w2) as [[r w3]|e] eqn:Hexec; [|by intros [= <-]].
    apply execute_extends in Hexec as (Hclock3 & _ & Hext).
    apply Hstep; [by rewrite <- Hfiles2|congruence].
  - intros [= <-]. rewrite Hfiles. split; [apply extends_refl|done].
  - apply Hstep; [apply extends_refl|done].
Qed.

Lemma main_create_files_keeps (fs : filesystem) (name : string) (content : file) :
  fs !! name = Some content -> main_create_files fs !! name = Some content.
Proof.
  intros Hfile.
  destruct (decide (name ∈ [USER_FILE; BRANCHES_FILE; PRODUCTS_FILE; SALES_FILE]))
    as [Hin|Hout].
  - rewrite !elem_of_cons, elem_of_nil in Hin.
    destruct Hin as [->|[->|[->|[->|[]]]]].
    + by rewrite main_create_files_users, Hfile.
    + by rewrite main_create_files_branches, Hfile.
    + by rewrite main_create_files_products, Hfile.
    + by rewrite main_create_files_sales, Hfile.
  - by rewrite main_create_files_other.
Qed.

(** X18: [main] comes to an end on every finite input.  With more fuel
    than lines of input the session ends, by the operator logging out or by
    an exception, and more fuel does not change how.  The exception is
    never [FileNotFoundError]: the set-up has created the users file before
    [login] opens it. *)
Theorem main_terminates (w : world) (fuel : nat) :
  (length (stdin w) < fuel)%nat ->
  exists o : outcome world,
    (forall fuel', (fuel <= fuel')%nat -> main fuel' w = Some o)
    /\ o <> Failed FileNotFoundError.
Proof.
  intros Hlen. unfold main.
  set (w0 := set_files w (main_create_files (files w))).
  destruct (main_login_loop_total fuel w0 Hlen) as [o1 Ho1].
  pose proof (main_login_loop_inv fuel w0 o1 (Ho1 fuel ltac:(lia))) as Hinv1.
  destruct o1 as [w1|f].
  - destruct Hinv1 as (_ & _ & Hlen1).
    destruct (main_menu_loop_total fuel w1) as [o2 Ho2]; [simpl in Hlen1; lia|].
    pose proof (main_menu_loop_inv fuel w1 o2 (Ho2 fuel ltac:(lia))) as Hinv2.
    exists o2. split.
    + intros fuel' Hfuel. rewrite (Ho1 fuel' Hfuel). by apply Ho2.
    + destruct o2 as [w2|f]; [done|]. congruence.
  - exists (Failed f). split.
    + intros fuel' Hfuel. by rewrite (Ho1 fuel' Hfuel).
    + destruct f as [|e]; [|done].
      unfold w0 in Hinv1. simpl in Hinv1.
      by rewrite main_create_files_users in Hinv1.
Qed.

Lemma main_terminates_witness :
  exists o : outcome world,
    (forall fuel', (3 <= fuel')%nat ->
       main fuel' {| files := ∅; stdin := ["Username"; "Password"];
                     clock := noon_2024_01_03 |} = Some o)
    /\ o <> Failed FileNotFoundError.
Proof.
  apply (main_terminates
           {| files := ∅; stdin := ["Username"; "Password"]; clock := noon_2024_01_03 |} 3).
  simpl. lia.
Defined.

(** X19: a session that ends by logging out has only added rows.  The
    clock is as before; every file that existed still holds its rows, in
    place, before any row added; the users and the products containers hold
    what they held, or their header row when they were missing; and no file
    other than the four containers is touched. *)
Theorem main_keeps_rows (fuel : nat) (w w' : world) :
  main fuel w = Some (Done w') ->
  clock w' = clock w
  /\ (forall name content,
        files w !! name = Some content ->
        exists added, files w' !! name = Some (content ++ added))
  /\ files w' !! USER_FILE
     = Some (default [["Username"; "Password"]] (files w !! USER_FILE))
  /\ files w' !! PRODUCTS_FILE
     = Some (default [["Product ID"; "Product Name"]] (files w !! PRODUCTS_FILE))
  /\ (forall name,
        name ∉ [USER_FILE; BRANCHES_FILE; PRODUCTS_FILE; SALES_FILE] ->
        files w' !! name = files w !! name).
Proof.
  unfold main. set (w0 := set_files w (main_create_files (files w))).
  destruct (main_login_loop fuel w0) as [[w1|f]|] eqn:Hlogin; try discriminate.
  intros Hmenu.
  pose proof (main_login_loop_inv fuel w0 _ Hlogin) as (Hfiles1 & Hclock1 & _).
  pose proof (main_menu_loop_inv fuel w1 _ Hmenu) as (Hext & Hclock).
  simpl in Hfiles1, Hclock1. rewrite Hfiles1 in Hext.
  split; [congruence|]. split; [|split; [|split]].
  - intros name content Hfile. destruct (Hext name) as [Hrows _].
    apply Hrows. by apply main_create_files_keeps.
  - destruct (Hext USER_FILE) as [_ Hsame]. rewrite Hsame by done.
    apply main_create_files_users.
  - destruct (Hext PRODUCTS_FILE) as [_ Hsame]. rewrite Hsame by done.
    apply main_create_files_products.
  - intros name Hout. destruct (Hext name) as [_ Hsame]. rewrite Hsame.
    + by apply main_create_files_other.
    + intros ->. apply Hout. set_solver.
    + intros ->. apply Hout. set_solver.
Qed.

Lemma main_keeps_rows_witness :
  let w' := {| files := main_create_files ∅; stdin := []; clock := noon_2024_01_03 |} in
  clock w' = noon_2024_01_03.
Proof.
  intros w'.
  apply (main_keeps_rows 3
           {| files := ∅; stdin := ["Username"; "Password"; "9"];
              clock := noon_2024_01_03 |} w').
  reflexivity.
Defined.

(** * Input that is not validated *)



(** X21: [AddSaleCommand] does not check the branch.  A sale recorded in
    an empty Sale container for a branch_id that no row of the Branch
    container has makes [all_branches_monthly_sales_analysis] raise
    [KeyError], whatever amount was typed. *)
Theorem unknown_branch_breaks_report (w : world) (branch product amount : string)
    (rest : list string) (branches : file) :
  stdin w = branch :: product :: amount :: rest ->
  files w !! SALES_FILE = None \/ (exists header, files w !! SALES_FILE = Some [header]) ->
  load_data BRANCHES_FILE (files w) = Ok branches ->
  Forall (fun b => (0 < length b)%nat) branches ->
  branch ∉ map branch_id_of branches ->
  exists w' : world,
    execute AddSaleCommand w = Ok (None, w')
    /\ all_branches_monthly_sales_analysis (files w') = Raise KeyError.
Proof.
  intros Hstdin Hfile Hbranches Hrows Hunknown.
  destruct (execute_on_empty_container AddSaleCommand SALES_FILE w branch product amount
              rest eq_refl Hstdin Hfile) as (w' & Hexec & Hload & _).
  exists w'. split; [exact Hexec|].
  assert (Hbranches' : load_data BRANCHES_FILE (files w') = Ok branches).
  { assert (Hsame : files w' !! BRANCHES_FILE = files w !! BRANCHES_FILE).
    { simpl in Hexec.
      destruct (AddSaleCommand_execute w) as [w1|] eqn:Hrun; [|discriminate].
      simpl in Hexec. injection Hexec as ->.
      apply AddSaleCommand_execute_inv in Hrun as (? & ? & ? & ? & _ & _ & _ & ->).
      by apply save_data_other. }
    rewrite (load_data_known BRANCHES_FILE _ known_kind_BRANCHES_FILE) in *.
    unfold CSVLoader_load_data in *. simpl in *. by rewrite Hsame. }
  apply (all_branches_unknown_branch _ [new_record AddSaleCommand w branch product amount]
           branches Hload Hbranches' Hrows [] []
           (new_record AddSaleCommand w branch product amount) branch);
    [done|constructor|done|done].
Qed.

Lemma unknown_branch_breaks_report_witness :
  exists w' : world,
    execute AddSaleCommand
      {| files := one_branch; stdin := ["B7"; "P1"; "100"]; clock := noon_2024_01_03 |}
    = Ok (None, w')
    /\ all_branches_monthly_sales_analysis (files w') = Raise KeyError.
Proof.
  apply (unknown_branch_breaks_report
           {| files := one_branch; stdin := ["B7"; "P1"; "100"]; clock := noon_2024_01_03 |}
           "B7" "P1" "100" [] [["B1"; "Main"; "Colombo"]]).
  - reflexivity.
  - left. reflexivity.
  - reflexivity.
  - repeat constructor.
  - simpl. rewrite list_elem_of_singleton. discriminate.
Defined.

Lemma login_rows_short_row (username password : string) (before after : file)
    (bad : row) :
  Forall (fun r => (2 <= length r)%nat
                   /\ ~ (r !! 0%nat = Some username /\ r !! 1%nat = Some password))
    before ->
  bad = [] \/ bad = [username] ->
  login_rows username password (before ++ bad :: after) = Raise IndexError.
Proof.
  intros Hbefore Hbad. induction Hbefore as [|r before [Hlen Hno] _ IH]; simpl.
  - by destruct Hbad as [->| ->]; simpl; rewrite ?String.eqb_refl.
  - destruct r as [|name [|secret r]]; simpl in Hlen; try lia. simpl.
    destruct (String.eqb_spec name username) as [->|_]; [|exact IH].
    destruct (String.eqb_spec secret password) as [->|_]; [|exact IH].
    by destruct Hno.
Qed.

(** X22: a short row in the users file ends [login] with [IndexError].
    When the rows before it have two fields and none of them holds the
    typed user name and password, an empty row, or a row made of the typed
    user name alone, is read past its end, whatever the rows after it
    hold. *)
Theorem login_short_row (w : world) (username password : string) (rest : list string)
    (before after : file) (bad : row) :
  stdin w = username :: password :: rest ->
  files w !! USER_FILE = Some (before ++ bad :: after) ->
  Forall (fun r => (2 <= length r)%nat
                   /\ ~ (r !! 0%nat = Some username /\ r !! 1%nat = Some password))
    before ->
  bad = [] \/ bad = [username] ->
  login w = Failed (Uncaught IndexError).
Proof.
  intros Hstdin Hfile Hbefore Hbad.
  rewrite (login_steps w username password rest Hstdin).
  unfold open_read. rewrite Hfile. simpl.
  by rewrite (login_rows_short_row username password before after bad Hbefore Hbad).
Qed.

Lemma login_short_row_witness :
  login {| files := {[ USER_FILE := [["Username"; "Password"]; []; ["admin"; "secret"]] ]};
           stdin := ["admin"; "secret"]; clock := noon_2024_01_03 |}
  = Failed (Uncaught IndexError).
Proof.
  apply (login_short_row _ "admin" "secret" [] [["Username"; "Password"]]
           [["admin"; "secret"]] []).
  - reflexivity.
  - reflexivity.
  - repeat constructor. simpl. intros [[=] _].
  - by left.
Defined.
